(** * FlowState ambient-soundscape engine: a shallow embedding of [useAudioEngine]

    The development follows [src/components/Timer.tsx] (the second document of
    that file, the [useAudioEngine] hook) and the timer store it observes.

    Conventions.
    - JavaScript numbers that carry gains, times and samples are exact
      rationals ([Q]); binary rounding and the float32 storage of audio
      buffers are outside the model.  Sample rates, durations in whole seconds
      and buffer lengths are natural numbers.
    - [Math.random] is a stream of draws [nat -> Q]; the k-th call returns the
      k-th element.
    - The Web Audio objects the hook creates live in a store of nodes indexed
      by allocation order; a JavaScript reference to a node is its index.
    - A call that can raise returns an [outcome]; the store keeps every
      mutation made before the exception.
    - React state read by the hook's functions is the value captured by the
      render that created them (a [Closure]); a state setter only takes effect
      at the next render. *)

From Stdlib Require Import QArith Qminmax Lqa Lia.
From stdpp Require Import base option list.

Set Warnings "-abstract-large-number".

Open Scope Q_scope.

(** ** Outcomes of calls that may raise *)

Inductive DOMException := InvalidStateError | NotSupportedError | TypeError.

Inductive outcome (A : Type) :=
| Ok (a : A)
| Throw (e : DOMException).
Arguments Ok {A} a.
Arguments Throw {A} e.

(** ** Noise generator *)

Inductive NoiseType := white | pink | brown.

Record AudioContext := { sampleRate : nat }.

Record AudioBuffer := {
  numberOfChannels : nat;
  buf_length : nat;
  buf_sampleRate : nat;
  channelData : list Q
}.

(** [context.createBuffer(channels, length, sampleRate)]: a zero-filled buffer;
    the Web Audio API rejects an empty one with [NotSupportedError]. *)
Definition createBuffer (channels length rate : nat) : outcome AudioBuffer :=
  if (length =? 0)%nat then Throw NotSupportedError
  else Ok {| numberOfChannels := channels; buf_length := length;
             buf_sampleRate := rate; channelData := replicate length 0 |}.

(** [for (let i = 0; i < length; i++) body], as [n] remaining iterations from
    index [i]. *)
Fixpoint for_loop {St : Type} (n i : nat) (body : nat -> St -> St) (s : St)
  : St :=
  match n with
  | O => s
  | S n' => for_loop n' (S i) body (body i s)
  end.

(** The seven filter registers of the pink-noise loop. *)
Record PinkRegs := {
  b0 : Q; b1 : Q; b2 : Q; b3 : Q; b4 : Q; b5 : Q; b6 : Q
}.

Definition pink_zero : PinkRegs :=
  {| b0 := 0; b1 := 0; b2 := 0; b3 := 0; b4 := 0; b5 := 0; b6 := 0 |}.

Definition white_body (random : nat -> Q) (i : nat) (data : list Q) : list Q :=
  <[i := random i * 2 - 1]> data.

Definition pink_body (random : nat -> Q) (i : nat) (s : PinkRegs * list Q)
  : PinkRegs * list Q :=
  let '(r, data) := s in
  let white := random i * 2 - 1 in
  let b0' := 0.99886 * b0 r + white * 0.0555179 in
  let b1' := 0.99332 * b1 r + white * 0.0750759 in
  let b2' := 0.969 * b2 r + white * 0.153852 in
  let b3' := 0.8665 * b3 r + white * 0.3104856 in
  let b4' := 0.55 * b4 r + white * 0.5329522 in
  let b5' := -0.7616 * b5 r - white * 0.016898 in
  let pink := b0' + b1' + b2' + b3' + b4' + b5' + b6 r + white * 0.5362 in
  let b6' := white * 0.115926 in
  ({| b0 := b0'; b1 := b1'; b2 := b2'; b3 := b3'; b4 := b4'; b5 := b5';
      b6 := b6' |},
   <[i := pink * 0.11]> data).

Definition brown_body (random : nat -> Q) (i : nat) (s : Q * list Q)
  : Q * list Q :=
  let '(lastOut, data) := s in
  let white := random i * 2 - 1 in
  let lastOut' := (lastOut + 0.02 * white) / 1.02 in
  (lastOut', <[i := lastOut' * 3.5]> data).

(** The three loops over a zero-filled channel of [length] samples. *)
Definition fill_channel (type : NoiseType) (length : nat) (random : nat -> Q)
    (data : list Q) : list Q :=
  match type with
  | white => for_loop length 0 (white_body random) data
  | pink => snd (for_loop length 0 (pink_body random) (pink_zero, data))
  | brown => snd (for_loop length 0 (brown_body random) (0, data))
  end.

Definition createNoiseBuffer (context : AudioContext) (type : NoiseType)
    (durationSec : nat) (random : nat -> Q) : outcome AudioBuffer :=
  let rate := sampleRate context in
  let length := (rate * durationSec)%nat in
  match createBuffer 1 length rate with
  | Throw e => Throw e
  | Ok buffer =>
      Ok {| numberOfChannels := numberOfChannels buffer;
            buf_length := buf_length buffer;
            buf_sampleRate := buf_sampleRate buffer;
            channelData := fill_channel type length random (channelData buffer) |}
  end.

(** The default [durationSec = 3] of the source. *)
Definition defaultDurationSec : nat := 3.

(** A draw of [Math.random] lies in [0, 1). *)
Definition valid_random (random : nat -> Q) : Prop :=
  forall k, 0 <= random k /\ random k < 1.

Definition within (bound x : Q) : Prop := - bound <= x /\ x <= bound.

(** *** Loop invariants of the three generators *)

Definition white_inv (len : nat) (data : list Q) : Prop :=
  length data = len /\ Forall (within 1) data.

(** Each register is a contraction of itself plus a bounded input, which
    bounds it by the input gain over one minus the feedback coefficient. *)
Definition pink_regs_bounded (r : PinkRegs) : Prop :=
  within 49 (b0 r) /\ within 12 (b1 r) /\ within 5 (b2 r) /\
  within 2.4 (b3 r) /\ within 1.2 (b4 r) /\ within 0.08 (b5 r) /\
  within 0.115926 (b6 r).

Definition pink_inv (len : nat) (s : PinkRegs * list Q) : Prop :=
  pink_regs_bounded (fst s) /\ length (snd s) = len /\
  Forall (within 7.74) (snd s).

Definition brown_inv (len : nat) (s : Q * list Q) : Prop :=
  within 1 (fst s) /\ length (snd s) = len /\ Forall (within 3.5) (snd s).

(** The normalisation the source reaches for every stream of draws: its
    constants are empirical, so pink and brown are only bounded by the gain of
    their filters. *)
Definition sample_bound (type : NoiseType) : Q :=
  match type with
  | white => 1
  | pink => 7.74
  | brown => 3.5
  end.

(** ** Web Audio store *)

Inductive SoundMode := rain | wind | waves.

Abbreviation NodeId := nat.

Inductive AutomationEvent :=
| SetValueAtTime (v t : Q)
| LinearRampToValueAtTime (v t : Q).

Definition ev_time (e : AutomationEvent) : Q :=
  match e with SetValueAtTime _ t | LinearRampToValueAtTime _ t => t end.

Definition ev_value (e : AutomationEvent) : Q :=
  match e with SetValueAtTime v _ | LinearRampToValueAtTime v _ => v end.

(** An [AudioParam]: the value its getter returns (the value of the last
    rendered quantum) and its timeline of scheduled events, ordered by time. *)
Record AudioParam := { value : Q; events : list AutomationEvent }.

Definition param (v : Q) : AudioParam := {| value := v; events := [] |}.

Inductive ParamName := Gain | Frequency | QFactor | Pan.

Inductive BiquadFilterType := lowpass | highpass | bandpass.

(** Playback of an [AudioScheduledSourceNode]. *)
Record Playback := { started : bool; stopAt : option Q }.

Definition idle : Playback := {| started := false; stopAt := None |}.

Inductive AudioNode :=
| GainNode (gain_ : AudioParam)
| BiquadFilterNode (type_ : BiquadFilterType) (frequency_ Q_ : AudioParam)
| AudioBufferSourceNode (buffer_ : option AudioBuffer) (loop_ : bool)
    (playback : Playback)
| OscillatorNode (frequency_ : AudioParam) (playback : Playback)
| StereoPannerNode (pan_ : AudioParam).

(** What [connect] accepts: the context's destination, a node, or a parameter
    of a node. *)
Inductive Target :=
| ToDestination
| ToNode (n : NodeId)
| ToParam (n : NodeId) (p : ParamName).

Definition param_of (p : ParamName) (n : AudioNode) : option AudioParam :=
  match p, n with
  | Gain, GainNode g => Some g
  | Frequency, BiquadFilterNode _ f _ => Some f
  | QFactor, BiquadFilterNode _ _ q => Some q
  | Frequency, OscillatorNode f _ => Some f
  | Pan, StereoPannerNode a => Some a
  | _, _ => None
  end.

Definition update_param (p : ParamName) (f : AudioParam -> AudioParam)
    (n : AudioNode) : AudioNode :=
  match p, n with
  | Gain, GainNode g => GainNode (f g)
  | Frequency, BiquadFilterNode t fr q => BiquadFilterNode t (f fr) q
  | QFactor, BiquadFilterNode t fr q => BiquadFilterNode t fr (f q)
  | Frequency, OscillatorNode fr pb => OscillatorNode (f fr) pb
  | Pan, StereoPannerNode a => StereoPannerNode (f a)
  | _, _ => n
  end.

Definition playback_of (n : AudioNode) : option Playback :=
  match n with
  | AudioBufferSourceNode _ _ pb | OscillatorNode _ pb => Some pb
  | _ => None
  end.

Definition set_playback (pb : Playback) (n : AudioNode) : AudioNode :=
  match n with
  | AudioBufferSourceNode b l _ => AudioBufferSourceNode b l pb
  | OscillatorNode f _ => OscillatorNode f pb
  | _ => n
  end.

(** The node record of one soundscape graph ([interface ModeNodes]). *)
Record ModeNodes := {
  source : NodeId;
  gain : NodeId;
  filter : option NodeId;
  lfoOsc : option NodeId;
  lfoGain : option NodeId;
  spraySource : option NodeId;
  bodyGain : option NodeId;
  sprayGain : option NodeId;
  masterFilter : option NodeId;
  panNode : option NodeId;
  panOsc : option NodeId;
  panGain : option NodeId
}.

Inductive AudioContextState := suspended | running | closed.

(** ** The world the hook runs in *)

Record World := {
  (* React state cells: written by the setters, read by the next render *)
  modeState : SoundMode;
  enabledState : bool;
  volumeState : Q;
  (* timer store *)
  store_isRunning : bool;
  store_isBreak : bool;
  (* refs *)
  audioCtxRef : option AudioContext;
  masterGainRef : option NodeId;
  currentNodesRef : option ModeNodes;
  (* window listeners of the first-gesture unlock *)
  unlockListening : bool;
  (* browser audio *)
  hardwareSampleRate : nat;
  contextsCreated : nat;
  contextState : AudioContextState;
  resumePending : bool;
  currentTime : Q;
  nodes : list AudioNode;
  edges : list (NodeId * Target);
  (* Math.random *)
  randomSource : nat -> Q;
  randomCalls : nat
}.

Definition set_modeState (x : SoundMode) (w : World) : World :=
  {| modeState := x; enabledState := enabledState w;
     volumeState := volumeState w; store_isRunning := store_isRunning w;
     store_isBreak := store_isBreak w; audioCtxRef := audioCtxRef w;
     masterGainRef := masterGainRef w; currentNodesRef := currentNodesRef w;
     unlockListening := unlockListening w;
     hardwareSampleRate := hardwareSampleRate w;
     contextsCreated := contextsCreated w; contextState := contextState w;
     resumePending := resumePending w; currentTime := currentTime w;
     nodes := nodes w; edges := edges w; randomSource := randomSource w;
     randomCalls := randomCalls w |}.

Definition set_enabledState (x : bool) (w : World) : World :=
  {| modeState := modeState w; enabledState := x;
     volumeState := volumeState w; store_isRunning := store_isRunning w;
     store_isBreak := store_isBreak w; audioCtxRef := audioCtxRef w;
     masterGainRef := masterGainRef w; currentNodesRef := currentNodesRef w;
     unlockListening := unlockListening w;
     hardwareSampleRate := hardwareSampleRate w;
     contextsCreated := contextsCreated w; contextState := contextState w;
     resumePending := resumePending w; currentTime := currentTime w;
     nodes := nodes w; edges := edges w; randomSource := randomSource w;
     randomCalls := randomCalls w |}.

Definition set_volumeState (x : Q) (w : World) : World :=
  {| modeState := modeState w; enabledState := enabledState w;
     volumeState := x; store_isRunning := store_isRunning w;
     store_isBreak := store_isBreak w; audioCtxRef := audioCtxRef w;
     masterGainRef := masterGainRef w; currentNodesRef := currentNodesRef w;
     unlockListening := unlockListening w;
     hardwareSampleRate := hardwareSampleRate w;
     contextsCreated := contextsCreated w; contextState := contextState w;
     resumePending := resumePending w; currentTime := currentTime w;
     nodes := nodes w; edges := edges w; randomSource := randomSource w;
     randomCalls := randomCalls w |}.

Definition set_timer (r b : bool) (w : World) : World :=
  {| modeState := modeState w; enabledState := enabledState w;
     volumeState := volumeState w; store_isRunning := r;
     store_isBreak := b; audioCtxRef := audioCtxRef w;
     masterGainRef := masterGainRef w; currentNodesRef := currentNodesRef w;
     unlockListening := unlockListening w;
     hardwareSampleRate := hardwareSampleRate w;
     contextsCreated := contextsCreated w; contextState := contextState w;
     resumePending := resumePending w; currentTime := currentTime w;
     nodes := nodes w; edges := edges w; randomSource := randomSource w;
     randomCalls := randomCalls w |}.

(** [new AudioContext()] together with the two ref assignments of
    [ensureContext]. *)
Definition set_context (ctx : AudioContext) (w : World) : World :=
  {| modeState := modeState w; enabledState := enabledState w;
     volumeState := volumeState w; store_isRunning := store_isRunning w;
     store_isBreak := store_isBreak w; audioCtxRef := Some ctx;
     masterGainRef := masterGainRef w; currentNodesRef := currentNodesRef w;
     unlockListening := unlockListening w;
     hardwareSampleRate := hardwareSampleRate w;
     contextsCreated := S (contextsCreated w); contextState := contextState w;
     resumePending := resumePending w; currentTime := currentTime w;
     nodes := nodes w; edges := edges w; randomSource := randomSource w;
     randomCalls := randomCalls w |}.

Definition set_masterGainRef (x : option NodeId) (w : World) : World :=
  {| modeState := modeState w; enabledState := enabledState w;
     volumeState := volumeState w; store_isRunning := store_isRunning w;
     store_isBreak := store_isBreak w; audioCtxRef := audioCtxRef w;
     masterGainRef := x; currentNodesRef := currentNodesRef w;
     unlockListening := unlockListening w;
     hardwareSampleRate := hardwareSampleRate w;
     contextsCreated := contextsCreated w; contextState := contextState w;
     resumePending := resumePending w; currentTime := currentTime w;
     nodes := nodes w; edges := edges w; randomSource := randomSource w;
     randomCalls := randomCalls w |}.

Definition set_currentNodesRef (x : option ModeNodes) (w : World) : World :=
  {| modeState := modeState w; enabledState := enabledState w;
     volumeState := volumeState w; store_isRunning := store_isRunning w;
     store_isBreak := store_isBreak w; audioCtxRef := audioCtxRef w;
     masterGainRef := masterGainRef w; currentNodesRef := x;
     unlockListening := unlockListening w;
     hardwareSampleRate := hardwareSampleRate w;
     contextsCreated := contextsCreated w; contextState := contextState w;
     resumePending := resumePending w; currentTime := currentTime w;
     nodes := nodes w; edges := edges w; randomSource := randomSource w;
     randomCalls := randomCalls w |}.

Definition set_unlockListening (x : bool) (w : World) : World :=
  {| modeState := modeState w; enabledState := enabledState w;
     volumeState := volumeState w; store_isRunning := store_isRunning w;
     store_isBreak := store_isBreak w; audioCtxRef := audioCtxRef w;
     masterGainRef := masterGainRef w; currentNodesRef := currentNodesRef w;
     unlockListening := x;
     hardwareSampleRate := hardwareSampleRate w;
     contextsCreated := contextsCreated w; contextState := contextState w;
     resumePending := resumePending w; currentTime := currentTime w;
     nodes := nodes w; edges := edges w; randomSource := randomSource w;
     randomCalls := randomCalls w |}.

Definition set_contextState (x : AudioContextState) (pending : bool)
    (w : World) : World :=
  {| modeState := modeState w; enabledState := enabledState w;
     volumeState := volumeState w; store_isRunning := store_isRunning w;
     store_isBreak := store_isBreak w; audioCtxRef := audioCtxRef w;
     masterGainRef := masterGainRef w; currentNodesRef := currentNodesRef w;
     unlockListening := unlockListening w;
     hardwareSampleRate := hardwareSampleRate w;
     contextsCreated := contextsCreated w; contextState := x;
     resumePending := pending; currentTime := currentTime w;
     nodes := nodes w; edges := edges w; randomSource := randomSource w;
     randomCalls := randomCalls w |}.

Definition set_currentTime (x : Q) (w : World) : World :=
  {| modeState := modeState w; enabledState := enabledState w;
     volumeState := volumeState w; store_isRunning := store_isRunning w;
     store_isBreak := store_isBreak w; audioCtxRef := audioCtxRef w;
     masterGainRef := masterGainRef w; currentNodesRef := currentNodesRef w;
     unlockListening := unlockListening w;
     hardwareSampleRate := hardwareSampleRate w;
     contextsCreated := contextsCreated w; contextState := contextState w;
     resumePending := resumePending w; currentTime := x;
     nodes := nodes w; edges := edges w; randomSource := randomSource w;
     randomCalls := randomCalls w |}.

Definition set_nodes (x : list AudioNode) (w : World) : World :=
  {| modeState := modeState w; enabledState := enabledState w;
     volumeState := volumeState w; store_isRunning := store_isRunning w;
     store_isBreak := store_isBreak w; audioCtxRef := audioCtxRef w;
     masterGainRef := masterGainRef w; currentNodesRef := currentNodesRef w;
     unlockListening := unlockListening w;
     hardwareSampleRate := hardwareSampleRate w;
     contextsCreated := contextsCreated w; contextState := contextState w;
     resumePending := resumePending w; currentTime := currentTime w;
     nodes := x; edges := edges w; randomSource := randomSource w;
     randomCalls := randomCalls w |}.

Definition set_edges (x : list (NodeId * Target)) (w : World) : World :=
  {| modeState := modeState w; enabledState := enabledState w;
     volumeState := volumeState w; store_isRunning := store_isRunning w;
     store_isBreak := store_isBreak w; audioCtxRef := audioCtxRef w;
     masterGainRef := masterGainRef w; currentNodesRef := currentNodesRef w;
     unlockListening := unlockListening w;
     hardwareSampleRate := hardwareSampleRate w;
     contextsCreated := contextsCreated w; contextState := contextState w;
     resumePending := resumePending w; currentTime := currentTime w;
     nodes := nodes w; edges := x; randomSource := randomSource w;
     randomCalls := randomCalls w |}.

Definition set_randomCalls (x : nat) (w : World) : World :=
  {| modeState := modeState w; enabledState := enabledState w;
     volumeState := volumeState w; store_isRunning := store_isRunning w;
     store_isBreak := store_isBreak w; audioCtxRef := audioCtxRef w;
     masterGainRef := masterGainRef w; currentNodesRef := currentNodesRef w;
     unlockListening := unlockListening w;
     hardwareSampleRate := hardwareSampleRate w;
     contextsCreated := contextsCreated w; contextState := contextState w;
     resumePending := resumePending w; currentTime := currentTime w;
     nodes := nodes w; edges := edges w; randomSource := randomSource w;
     randomCalls := x |}.

(** ** The monad of hook code: world passing with exceptions *)

Definition M (A : Type) : Type := World -> outcome A * World.

#[global] Instance M_ret : MRet M := fun A a w => (Ok a, w).

#[global] Instance M_bind : MBind M := fun A B k m w =>
  match m w with
  | (Ok a, w') => k a w'
  | (Throw e, w') => (Throw e, w')
  end.

#[global] Instance M_throw : MThrow DOMException M := fun A e w => (Throw e, w).

(** [try { m } catch { }] *)
Definition try_ignore (m : M unit) : M unit := fun w => (Ok tt, snd (m w)).

Definition gets {A : Type} (f : World -> A) : M A := fun w => (Ok (f w), w).

Definition modify (f : World -> World) : M unit := fun w => (Ok tt, f w).

(** [o?.method()] *)
Definition on_some {A : Type} (o : option A) (f : A -> M unit) : M unit :=
  match o with
  | Some a => f a
  | None => mret tt
  end.

(** ** Web Audio operations *)

Definition newNode (n : AudioNode) : M NodeId := fun w =>
  (Ok (length (nodes w)), set_nodes (nodes w ++ [n]) w).

Definition createGain : M NodeId := newNode (GainNode (param 1)).

Definition createBiquadFilter : M NodeId :=
  newNode (BiquadFilterNode lowpass (param 350) (param 1)).

Definition createBufferSource : M NodeId :=
  newNode (AudioBufferSourceNode None false idle).

Definition createOscillator : M NodeId :=
  newNode (OscillatorNode (param 440) idle).

Definition createStereoPanner : M NodeId := newNode (StereoPannerNode (param 0)).

Definition alter_node (f : AudioNode -> AudioNode) (n : NodeId) : M unit :=
  modify (fun w => set_nodes (alter f n (nodes w)) w).

(** [node.buffer = b; node.loop = true] *)
Definition set_buffer (b : AudioBuffer) (n : AudioNode) : AudioNode :=
  match n with
  | AudioBufferSourceNode _ l pb => AudioBufferSourceNode (Some b) l pb
  | _ => n
  end.

Definition set_loop (l : bool) (n : AudioNode) : AudioNode :=
  match n with
  | AudioBufferSourceNode b _ pb => AudioBufferSourceNode b l pb
  | _ => n
  end.

(** [filter.type = t] *)
Definition set_type (t : BiquadFilterType) (n : AudioNode) : AudioNode :=
  match n with
  | BiquadFilterNode _ f q => BiquadFilterNode t f q
  | _ => n
  end.

(** [node.p.value = v] *)
Definition set_value (n : NodeId) (p : ParamName) (v : Q) : M unit :=
  alter_node (update_param p (fun a => {| value := v; events := events a |})) n.

(** [node.p.value] *)
Definition get_value (n : NodeId) (p : ParamName) : M Q :=
  gets (fun w => match nodes w !! n ≫= param_of p with
                 | Some a => value a
                 | None => 0
                 end).

Definition connect (n : NodeId) (t : Target) : M unit :=
  modify (fun w => set_edges (edges w ++ [(n, t)]) w).

(** [node.disconnect()]: every outgoing connection of the node goes. *)
Definition disconnect (n : NodeId) : M unit :=
  modify (fun w =>
    set_edges (List.filter (fun e => negb (fst e =? n)%nat) (edges w)) w).

(** [source.start()]: a second call raises [InvalidStateError]. *)
Definition start (n : NodeId) : M unit := fun w =>
  match nodes w !! n ≫= playback_of with
  | Some pb =>
      if started pb then (Throw InvalidStateError, w)
      else alter_node (set_playback {| started := true; stopAt := stopAt pb |})
             n w
  | None => (Ok tt, w)
  end.

(** [source.stop(when)]: raises [InvalidStateError] before [start]; the source
    stops at [when], or at once if that time has passed. *)
Definition stop (n : NodeId) (when : Q) : M unit := fun w =>
  match nodes w !! n ≫= playback_of with
  | Some pb =>
      if started pb
      then alter_node
             (set_playback {| started := true;
                              stopAt := Some (Qmax when (currentTime w)) |})
             n w
      else (Throw InvalidStateError, w)
  | None => (Ok tt, w)
  end.

(** Timeline insertion keeps events ordered by time, later calls after
    earlier ones of the same time. *)
Fixpoint insertEvent (e : AutomationEvent) (evs : list AutomationEvent)
  : list AutomationEvent :=
  match evs with
  | [] => [e]
  | x :: rest =>
      if Qle_bool (ev_time x) (ev_time e) then x :: insertEvent e rest
      else e :: x :: rest
  end.

(** Events strictly before [t], which [cancelScheduledValues(t)] keeps. *)
Definition events_before (t : Q) (evs : list AutomationEvent)
  : list AutomationEvent :=
  List.filter (fun e => negb (Qle_bool t (ev_time e))) evs.

Definition schedule (n : NodeId) (p : ParamName)
    (f : list AutomationEvent -> list AutomationEvent) : M unit :=
  alter_node
    (update_param p (fun a => {| value := value a; events := f (events a) |}))
    n.

Definition cancelScheduledValues (n : NodeId) (p : ParamName) (t : Q)
  : M unit := schedule n p (events_before t).

Definition setValueAtTime (n : NodeId) (p : ParamName) (v t : Q) : M unit :=
  schedule n p (insertEvent (SetValueAtTime v t)).

Definition linearRampToValueAtTime (n : NodeId) (p : ParamName) (v t : Q)
  : M unit := schedule n p (insertEvent (LinearRampToValueAtTime v t)).

(** [ctx.resume()]: the promise settles later, see [Resumed]. *)
Definition resume : M unit :=
  modify (fun w => set_contextState (contextState w) true w).

(** [createNoiseBuffer(ctx, type)] drawing from the world's [Math.random]. *)
Definition createNoiseBufferM (ctx : AudioContext) (type : NoiseType)
  : M AudioBuffer := fun w =>
  let random := fun k => randomSource w (randomCalls w + k)%nat in
  match createNoiseBuffer ctx type defaultDurationSec random with
  | Ok b =>
      (Ok b,
       set_randomCalls (randomCalls w + sampleRate ctx * defaultDurationSec) w)
  | Throw e => (Throw e, w)
  end.

(** ** The hook *)

Definition FADE_TIME : Q := 0.5.

(** What one render of the hook binds: the store's timer signal and the three
    state values.  The functions a render returns read these, not the cells. *)
Record Closure := {
  isRunning : bool;
  isBreak : bool;
  mode : SoundMode;
  enabled : bool;
  volume : Q
}.

Definition ensureContext : M AudioContext := fun w =>
  match audioCtxRef w with
  | None =>
      let ctx := {| sampleRate := hardwareSampleRate w |} in
      (master ← createGain;
       set_value master Gain 0;;
       connect master ToDestination;;
       modify (set_masterGainRef (Some master));;
       mret ctx) (set_context ctx w)
  | Some ctx => (Ok ctx, w)
  end.

Definition resumeContextIfNeeded : M AudioContext :=
  ctx ← ensureContext;
  st ← gets contextState;
  (match st with
   | suspended => resume
   | _ => mret tt
   end);;
  mret ctx.

Definition stopModeNodes (nodes : option ModeNodes) (ctx : AudioContext)
    (fadeOut : bool) : M unit :=
  match nodes with
  | None => mret tt
  | Some nodes =>
      now ← gets currentTime;
      (if fadeOut then
         cancelScheduledValues (gain nodes) Gain now;;
         v ← get_value (gain nodes) Gain;
         setValueAtTime (gain nodes) Gain v now;;
         linearRampToValueAtTime (gain nodes) Gain 0 (now + FADE_TIME)
       else mret tt);;
      try_ignore (stop (source nodes) (now + (if fadeOut then FADE_TIME else 0)));;
      on_some (spraySource nodes) (fun spray =>
        try_ignore (stop spray (now + (if fadeOut then FADE_TIME else 0))));;
      (* Disconnect graph *)
      disconnect (source nodes);;
      on_some (spraySource nodes) disconnect;;
      disconnect (gain nodes);;
      on_some (bodyGain nodes) disconnect;;
      on_some (sprayGain nodes) disconnect;;
      on_some (filter nodes) disconnect;;
      on_some (masterFilter nodes) disconnect;;
      on_some (panNode nodes) disconnect;;
      on_some (lfoOsc nodes) (fun o => stop o 0);;
      on_some (lfoOsc nodes) disconnect;;
      on_some (lfoGain nodes) disconnect;;
      on_some (panOsc nodes) (fun o => stop o 0);;
      on_some (panOsc nodes) disconnect;;
      on_some (panGain nodes) disconnect
  end.

(** [gain.connect(masterGainRef.current!)] *)
Definition connect_master (gain : NodeId) : M unit :=
  master ← gets masterGainRef;
  match master with
  | Some m => connect gain (ToNode m)
  | None => mthrow TypeError
  end.

Definition buildModeNodes (ctx : AudioContext) (mode : SoundMode)
  : M ModeNodes :=
  gain ← createGain;
  match mode with
  | waves =>
      (* Layer A (Body): brown noise -> lowpass -> bodyGain *)
      bodyBuffer ← createNoiseBufferM ctx brown;
      bodySource ← createBufferSource;
      alter_node (set_buffer bodyBuffer) bodySource;;
      alter_node (set_loop true) bodySource;;
      bodyLPF ← createBiquadFilter;
      alter_node (set_type lowpass) bodyLPF;;
      set_value bodyLPF Frequency 400;;
      set_value bodyLPF QFactor 0.7;;
      bodyGain ← createGain;
      set_value bodyGain Gain 0.25;;
      connect bodySource (ToNode bodyLPF);;
      connect bodyLPF (ToNode bodyGain);;
      (* Layer B (Spray): pink noise -> highpass -> sprayGain *)
      sprayBuffer ← createNoiseBufferM ctx pink;
      spraySource ← createBufferSource;
      alter_node (set_buffer sprayBuffer) spraySource;;
      alter_node (set_loop true) spraySource;;
      sprayHPF ← createBiquadFilter;
      alter_node (set_type highpass) sprayHPF;;
      set_value sprayHPF Frequency 700;;
      set_value sprayHPF QFactor 0.7;;
      sprayGain ← createGain;
      set_value sprayGain Gain 0.0;;
      connect spraySource (ToNode sprayHPF);;
      connect sprayHPF (ToNode sprayGain);;
      (* Stereo bus *)
      panNode ← createStereoPanner;
      connect bodyGain (ToNode panNode);;
      connect sprayGain (ToNode panNode);;
      (* Master lowpass *)
      masterFilter ← createBiquadFilter;
      alter_node (set_type lowpass) masterFilter;;
      set_value masterFilter Frequency 2500;;
      set_value masterFilter QFactor 0.9;;
      connect panNode (ToNode masterFilter);;
      connect masterFilter (ToNode gain);;
      (* Primary LFO *)
      lfoOsc ← createOscillator;
      lfoGain ← createGain;
      set_value lfoOsc Frequency 0.12;;
      set_value lfoGain Gain 1.0;;
      connect lfoOsc (ToNode lfoGain);;
      bodyModGain ← createGain;
      set_value bodyModGain Gain 0.2;;
      connect lfoGain (ToNode bodyModGain);;
      connect bodyModGain (ToParam bodyGain Gain);;
      sprayModGain ← createGain;
      set_value sprayModGain Gain 0.25;;
      connect lfoGain (ToNode sprayModGain);;
      connect sprayModGain (ToParam sprayGain Gain);;
      filterModGain ← createGain;
      set_value filterModGain Gain 1500;;
      connect lfoGain (ToNode filterModGain);;
      connect filterModGain (ToParam masterFilter Frequency);;
      set_value masterFilter Frequency 2500;;
      (* Stereo pan LFO *)
      panOsc ← createOscillator;
      panGain ← createGain;
      set_value panOsc Frequency 0.05;;
      set_value panGain Gain 0.3;;
      connect panOsc (ToNode panGain);;
      connect panGain (ToParam panNode Pan);;
      start lfoOsc;;
      start panOsc;;
      start bodySource;;
      start spraySource;;
      (* Connect to master *)
      connect_master gain;;
      mret {| source := bodySource; gain := gain; filter := None;
              lfoOsc := Some lfoOsc; lfoGain := Some lfoGain;
              spraySource := Some spraySource; bodyGain := Some bodyGain;
              sprayGain := Some sprayGain; masterFilter := Some masterFilter;
              panNode := Some panNode; panOsc := Some panOsc;
              panGain := Some panGain |}
  | _ =>
      (* Rain / Wind share the single-noise pipeline *)
      buffer ← createNoiseBufferM ctx pink;
      source ← createBufferSource;
      alter_node (set_buffer buffer) source;;
      alter_node (set_loop true) source;;
      '(filter, lfoOsc, lfoGain) ←
        match mode with
        | rain =>
            filter ← createBiquadFilter;
            alter_node (set_type lowpass) filter;;
            set_value filter Frequency 3000;;
            set_value filter QFactor 0.7;;
            connect source (ToNode filter);;
            connect filter (ToNode gain);;
            mret (Some filter, None, None)
        | wind =>
            filter ← createBiquadFilter;
            alter_node (set_type bandpass) filter;;
            set_value filter Frequency 600;;
            set_value filter QFactor 1.2;;
            lfoOsc ← createOscillator;
            lfoGain ← createGain;
            set_value lfoOsc Frequency 0.1;;
            set_value lfoGain Gain 300;;
            connect lfoOsc (ToNode lfoGain);;
            connect lfoGain (ToParam filter Frequency);;
            start lfoOsc;;
            connect source (ToNode filter);;
            connect filter (ToNode gain);;
            mret (Some filter, Some lfoOsc, Some lfoGain)
        | waves => mret (None, None, None)
        end;
      connect_master gain;;
      mret {| source := source; gain := gain; filter := filter;
              lfoOsc := lfoOsc; lfoGain := lfoGain; spraySource := None;
              bodyGain := None; sprayGain := None; masterFilter := None;
              panNode := None; panOsc := None; panGain := None |}
  end.

Definition startMode (c : Closure) (newMode : SoundMode) : M unit :=
  ctx ← resumeContextIfNeeded;
  now ← gets currentTime;
  st ← gets contextState;
  (match st with
   | suspended => resume
   | _ => mret tt
   end);;
  oldNodes ← gets currentNodesRef;
  (match oldNodes with
   | Some _ => stopModeNodes oldNodes ctx true
   | None => mret tt
   end);;
  nodes ← buildModeNodes ctx newMode;
  modify (set_currentNodesRef (Some nodes));;
  setValueAtTime (gain nodes) Gain 0 now;;
  start (source nodes);;
  let target := if enabled c then volume c else 0 in
  linearRampToValueAtTime (gain nodes) Gain target (now + FADE_TIME).

Definition stopAll : M unit :=
  ctx ← gets audioCtxRef;
  match ctx with
  | None => mret tt
  | Some ctx =>
      now ← gets currentTime;
      master ← gets masterGainRef;
      on_some master (fun master =>
        cancelScheduledValues master Gain now;;
        v ← get_value master Gain;
        setValueAtTime master Gain v now;;
        linearRampToValueAtTime master Gain 0 (now + FADE_TIME));;
      nodes ← gets currentNodesRef;
      stopModeNodes nodes ctx true;;
      modify (set_currentNodesRef None)
  end.

(** *** Public API *)

Definition setMode (c : Closure) (newMode : SoundMode) : M unit :=
  modify (set_modeState newMode);;
  if negb (enabled c) then mret tt
  else startMode c newMode.

Definition setEnabled (c : Closure) (on : bool) : M unit :=
  modify (set_enabledState on);;
  if on then
    resumeContextIfNeeded;;
    startMode c (mode c)
  else stopAll.

Definition setVolume (v : Q) : M unit :=
  let clamped := Qmax 0 (Qmin 1 v) in
  modify (set_volumeState clamped);;
  ctx ← gets audioCtxRef;
  nodes ← gets currentNodesRef;
  match ctx, nodes with
  | Some ctx, Some nodes =>
      now ← gets currentTime;
      cancelScheduledValues (gain nodes) Gain now;;
      g ← get_value (gain nodes) Gain;
      setValueAtTime (gain nodes) Gain g now;;
      linearRampToValueAtTime (gain nodes) Gain clamped (now + 0.2)
  | _, _ => mret tt
  end.

(** *** Effects *)

(** The multiplier of the master gain effect, before the volume. *)
Definition masterMultiplier (c : Closure) : Q :=
  if negb (enabled c) then 0
  else if isRunning c && negb (isBreak c) then 1
  else 0.3.

(** Master gain: tied to timer state; deps [isRunning, isBreak, enabled,
    volume]. *)
Definition masterGainEffect (c : Closure) : M unit :=
  ctx ← gets audioCtxRef;
  master ← gets masterGainRef;
  match ctx, master with
  | Some ctx, Some master =>
      now ← gets currentTime;
      let target := masterMultiplier c in
      cancelScheduledValues master Gain now;;
      v ← get_value master Gain;
      setValueAtTime master Gain v now;;
      linearRampToValueAtTime master Gain (target * volume c) (now + 0.5)
  | _, _ => mret tt
  end.

(** The unmount cleanup. *)
Definition cleanup : M unit :=
  stopAll;;
  ctx ← gets audioCtxRef;
  match ctx with
  | Some _ => modify (fun w => set_contextState closed (resumePending w) w)
  | None => mret tt
  end.

(** The first-gesture listener; it removes itself. *)
Definition unlockHandler : M unit :=
  resumeContextIfNeeded;;
  modify (set_unlockListening false).

(** ** The mounted hook as a transition system *)

(** The value of a timeline at time [t], from the value [v0] it had at [t0]:
    a reached event sets the value, a ramp not yet reached interpolates from
    the event before it. *)
Fixpoint automation (evs : list AutomationEvent) (v0 t0 t : Q) : Q :=
  match evs with
  | [] => v0
  | e :: rest =>
      if Qle_bool (ev_time e) t then automation rest (ev_value e) (ev_time e) t
      else match e with
           | SetValueAtTime _ _ => v0
           | LinearRampToValueAtTime v1 t1 =>
               v0 + (v1 - v0) * ((t - t0) / (t1 - t0))
           end
  end.

Definition render_param (t0 t : Q) (a : AudioParam) : AudioParam :=
  {| value := automation (events a) (value a) t0 t; events := events a |}.

Definition render_node (t0 t : Q) (n : AudioNode) : AudioNode :=
  match n with
  | GainNode g => GainNode (render_param t0 t g)
  | BiquadFilterNode ty f q =>
      BiquadFilterNode ty (render_param t0 t f) (render_param t0 t q)
  | AudioBufferSourceNode b l pb => AudioBufferSourceNode b l pb
  | OscillatorNode f pb => OscillatorNode (render_param t0 t f) pb
  | StereoPannerNode a => StereoPannerNode (render_param t0 t a)
  end.

(** The audio clock of a running context advances by [dt]; every parameter
    then reports the value of its timeline at the new time. *)
Definition advance (dt : Q) (w : World) : World :=
  match contextState w with
  | running =>
      if Qle_bool 0 dt then
        let t := currentTime w + dt in
        set_currentTime t
          (set_nodes (map (render_node (currentTime w) t) (nodes w)) w)
      else w
  | _ => w
  end.

(** The promise of a pending [resume()] settles. *)
Definition resumed (w : World) : World :=
  match contextState w, resumePending w with
  | suspended, true => set_contextState running false w
  | st, _ => set_contextState st false w
  end.

(** The values a render binds. *)
Definition closure_of (w : World) : Closure :=
  {| isRunning := store_isRunning w; isBreak := store_isBreak w;
     mode := modeState w; enabled := enabledState w; volume := volumeState w |}.

(** React compares effect dependencies with [Object.is]. *)
Definition deps_changed (c c' : Closure) : bool :=
  negb (Bool.eqb (isRunning c) (isRunning c') &&
        Bool.eqb (isBreak c) (isBreak c') &&
        Bool.eqb (enabled c) (enabled c') &&
        Qeq_bool (volume c) (volume c')).

Inductive Action :=
| SetMode (m : SoundMode)
| SetEnabled (on : bool)
| SetVolume (v : Q)
| Render
| TimerSignal (isRunning isBreak : bool)
| Gesture
| Advance (dt : Q)
| Resumed
| Unmount.

(** One step of the mounted hook: the closure of the last render and the
    world.  A public operation runs on that closure; [Render] binds a new one
    and runs the master gain effect when its dependencies changed. *)
Definition act (a : Action) (h : Closure * World)
  : outcome unit * (Closure * World) :=
  let '(c, w) := h in
  match a with
  | SetMode m => let '(r, w') := setMode c m w in (r, (c, w'))
  | SetEnabled on => let '(r, w') := setEnabled c on w in (r, (c, w'))
  | SetVolume v => let '(r, w') := setVolume v w in (r, (c, w'))
  | Render =>
      let c' := closure_of w in
      if deps_changed c c' then
        let '(r, w') := masterGainEffect c' w in (r, (c', w'))
      else (Ok tt, (c', w))
  | TimerSignal r b => (Ok tt, (c, set_timer r b w))
  | Gesture =>
      if unlockListening w then
        let '(r, w') := unlockHandler w in (r, (c, w'))
      else (Ok tt, (c, w))
  | Advance dt => (Ok tt, (c, advance dt w))
  | Resumed => (Ok tt, (c, resumed w))
  | Unmount => let '(r, w') := cleanup w in (r, (c, w'))
  end.

(** A script of actions; the outcomes are collected, a raising handler does
    not stop the page. *)
Fixpoint run (script : list Action) (h : Closure * World)
  : list (outcome unit) * (Closure * World) :=
  match script with
  | [] => ([], h)
  | a :: rest =>
      let '(r, h') := act a h in
      let '(rs, h'') := run rest h' in
      (r :: rs, h'')
  end.

(** The hook right after mounting: [useState('rain')], [useState(false)],
    [useState(0.4)], the three refs null, the timer store idle. *)
Definition initialWorld (rate : nat) (random : nat -> Q) : World :=
  {| modeState := rain; enabledState := false; volumeState := 0.4;
     store_isRunning := false; store_isBreak := false;
     audioCtxRef := None; masterGainRef := None; currentNodesRef := None;
     unlockListening := true;
     hardwareSampleRate := rate; contextsCreated := 0;
     contextState := suspended; resumePending := false; currentTime := 0;
     nodes := []; edges := []; randomSource := random; randomCalls := 0 |}.

Definition initialHook (rate : nat) (random : nat -> Q) : Closure * World :=
  (closure_of (initialWorld rate random), initialWorld rate random).

(** ** Observations used by the statements *)

(** The timeline of the [gain] parameter of node [n]. *)
Definition gain_events (w : World) (n : NodeId) : list AutomationEvent :=
  match nodes w !! n with
  | Some (GainNode g) => events g
  | _ => []
  end.

(** The value the last scheduled event of a gain heads for. *)
Definition gain_target (w : World) (n : NodeId) : option Q :=
  ev_value <$> last (gain_events w n).

(** The outgoing connections of a node. *)
Definition out_edges (w : World) (n : NodeId) : list (NodeId * Target) :=
  List.filter (fun e => (fst e =? n)%nat) (edges w).

Definition opt_ids (os : list (option NodeId)) : list NodeId :=
  omap id os.

(** Every node a graph record owns. *)
Definition graph_ids (g : ModeNodes) : list NodeId :=
  source g :: gain g ::
  opt_ids [filter g; lfoOsc g; lfoGain g; spraySource g; bodyGain g;
           sprayGain g; masterFilter g; panNode g; panOsc g; panGain g].

(** The target of the output gain of the current graph. *)
Definition output_target (w : World) : option Q :=
  g ← currentNodesRef w; gain_target w (gain g).

(** The nodes connected to node [m]. *)
Definition inputs_of (w : World) (m : NodeId) : list NodeId :=
  map fst
    (List.filter (fun e => match snd e with
                           | ToNode n => (n =? m)%nat
                           | _ => false
                           end) (edges w)).

(** The time a scheduled source stops at, if it was told to. *)
Definition stop_time (w : World) (n : NodeId) : option Q :=
  (nodes w !! n ≫= playback_of) ≫= stopAt.

(** The value the getter of the [gain] parameter of node [n] returns. *)
Definition gain_value (w : World) (n : NodeId) : Q :=
  match nodes w !! n with
  | Some (GainNode g) => value g
  | _ => 0
  end.

(** Equality of events and timelines up to the equality of rationals. *)
Definition same_event (e1 e2 : AutomationEvent) : bool :=
  match e1, e2 with
  | SetValueAtTime v1 t1, SetValueAtTime v2 t2 =>
      Qeq_bool v1 v2 && Qeq_bool t1 t2
  | LinearRampToValueAtTime v1 t1, LinearRampToValueAtTime v2 t2 =>
      Qeq_bool v1 v2 && Qeq_bool t1 t2
  | _, _ => false
  end.

Fixpoint same_events (l1 l2 : list AutomationEvent) : bool :=
  match l1, l2 with
  | [], [] => true
  | e1 :: l1', e2 :: l2' => same_event e1 e2 && same_events l1' l2'
  | _, _ => false
  end.

(** Node [n] is a source told to stop at time [t]. *)
Definition stops_at (w : World) (n : NodeId) (t : Q) : bool :=
  match stop_time w n with
  | Some t' => Qeq_bool t' t
  | None => false
  end.

(** The claimed table of the master gain target, in the words of the
    specification. *)
Definition claimed_master_target (enabled isRunning isBreak : bool)
    (volume : Q) : Q :=
  if negb enabled then 0
  else if isRunning && negb isBreak then 1.0 * volume
  else 0.3 * volume.

(** The claimed normalisation: the buffer has [durationSec * rate] samples,
    each in [-1, 1]. *)
Definition normalised (type : NoiseType) (durationSec rate : nat)
    (random : nat -> Q) : Prop :=
  exists buf,
    createNoiseBuffer {| sampleRate := rate |} type durationSec random = Ok buf /\
    length (channelData buf) = (durationSec * rate)%nat /\
    Forall (within 1) (channelData buf).

(** The samples of a generated buffer, none if generation raised. *)
Definition samples_of (o : outcome AudioBuffer) : list Q :=
  match o with
  | Ok b => channelData b
  | Throw _ => []
  end.

(** The stream of draws that are all 0, the low end of [0, 1). *)
Definition zero_draws : nat -> Q := fun _ => 0.

(** ** Summaries of the built graphs *)

(** The buffer [createNoiseBuffer] returns for a positive sample rate and the
    default duration. *)
Definition noiseBuffer (ctx : AudioContext) (type : NoiseType)
    (random : nat -> Q) : AudioBuffer :=
  {| numberOfChannels := 1;
     buf_length := sampleRate ctx * defaultDurationSec;
     buf_sampleRate := sampleRate ctx;
     channelData :=
       fill_channel type (sampleRate ctx * defaultDurationSec) random
         (replicate (sampleRate ctx * defaultDurationSec) 0) |}.

(** A world with its node store, connections and count of draws replaced. *)
Definition with_audio (w : World) (ns : list AudioNode)
    (es : list (NodeId * Target)) (rc : nat) : World :=
  set_nodes ns (set_edges es (set_randomCalls rc w)).

(** The record [buildModeNodes] returns when the store already holds [n]
    nodes. *)
Definition built_graph (mode : SoundMode) (n : nat) : ModeNodes :=
  match mode with
  | rain =>
      {| source := n + 1; gain := n; filter := Some (n + 2)%nat;
         lfoOsc := None; lfoGain := None; spraySource := None;
         bodyGain := None; sprayGain := None; masterFilter := None;
         panNode := None; panOsc := None; panGain := None |}
  | wind =>
      {| source := n + 1; gain := n; filter := Some (n + 2)%nat;
         lfoOsc := Some (n + 3)%nat; lfoGain := Some (n + 4)%nat;
         spraySource := None; bodyGain := None; sprayGain := None;
         masterFilter := None; panNode := None; panOsc := None;
         panGain := None |}
  | waves =>
      {| source := n + 1; gain := n; filter := None;
         lfoOsc := Some (n + 9)%nat; lfoGain := Some (n + 10)%nat;
         spraySource := Some (n + 4)%nat; bodyGain := Some (n + 3)%nat;
         sprayGain := Some (n + 6)%nat; masterFilter := Some (n + 8)%nat;
         panNode := Some (n + 7)%nat; panOsc := Some (n + 14)%nat;
         panGain := Some (n + 15)%nat |}
  end.

Definition playing : Playback := {| started := true; stopAt := None |}.

(** The nodes it appends to the store, in allocation order, after [rc] draws
    of the stream [random]. *)
Definition built_nodes (mode : SoundMode) (ctx : AudioContext)
    (random : nat -> Q) (rc : nat) : list AudioNode :=
  match mode with
  | rain =>
      [GainNode (param 1);
       AudioBufferSourceNode
         (Some (noiseBuffer ctx pink (fun k => random (rc + k)%nat))) true idle;
       BiquadFilterNode lowpass (param 3000) (param 0.7)]
  | wind =>
      [GainNode (param 1);
       AudioBufferSourceNode
         (Some (noiseBuffer ctx pink (fun k => random (rc + k)%nat))) true idle;
       BiquadFilterNode bandpass (param 600) (param 1.2);
       OscillatorNode (param 0.1) playing;
       GainNode (param 300)]
  | waves =>
      [GainNode (param 1);
       AudioBufferSourceNode
         (Some (noiseBuffer ctx brown (fun k => random (rc + k)%nat)))
         true playing;
       BiquadFilterNode lowpass (param 400) (param 0.7);
       GainNode (param 0.25);
       AudioBufferSourceNode
         (Some (noiseBuffer ctx pink
                  (fun k =>
                     random (rc + sampleRate ctx * defaultDurationSec + k)%nat)))
         true playing;
       BiquadFilterNode highpass (param 700) (param 0.7);
       GainNode (param 0.0);
       StereoPannerNode (param 0);
       BiquadFilterNode lowpass (param 2500) (param 0.9);
       OscillatorNode (param 0.12) playing;
       GainNode (param 1.0);
       GainNode (param 0.2);
       GainNode (param 0.25);
       GainNode (param 1500);
       OscillatorNode (param 0.05) playing;
       GainNode (param 0.3)]
  end.

(** The connections it makes, in call order; [m] is the master gain. *)
Definition built_edges (mode : SoundMode) (n m : nat)
  : list (NodeId * Target) :=
  match mode with
  | rain =>
      [((n + 1)%nat, ToNode (n + 2)); ((n + 2)%nat, ToNode n); (n, ToNode m)]
  | wind =>
      [((n + 3)%nat, ToNode (n + 4));
       ((n + 4)%nat, ToParam (n + 2) Frequency);
       ((n + 1)%nat, ToNode (n + 2)); ((n + 2)%nat, ToNode n); (n, ToNode m)]
  | waves =>
      [((n + 1)%nat, ToNode (n + 2)); ((n + 2)%nat, ToNode (n + 3));
       ((n + 4)%nat, ToNode (n + 5)); ((n + 5)%nat, ToNode (n + 6));
       ((n + 3)%nat, ToNode (n + 7)); ((n + 6)%nat, ToNode (n + 7));
       ((n + 7)%nat, ToNode (n + 8)); ((n + 8)%nat, ToNode n);
       ((n + 9)%nat, ToNode (n + 10)); ((n + 10)%nat, ToNode (n + 11));
       ((n + 11)%nat, ToParam (n + 3) Gain);
       ((n + 10)%nat, ToNode (n + 12));
       ((n + 12)%nat, ToParam (n + 6) Gain);
       ((n + 10)%nat, ToNode (n + 13));
       ((n + 13)%nat, ToParam (n + 8) Frequency);
       ((n + 14)%nat, ToNode (n + 15));
       ((n + 15)%nat, ToParam (n + 7) Pan);
       (n, ToNode m)]
  end.

(** The draws of [Math.random] it consumes. *)
Definition built_draws (mode : SoundMode) (ctx : AudioContext) : nat :=
  match mode with
  | waves =>
      sampleRate ctx * defaultDurationSec + sampleRate ctx * defaultDurationSec
  | _ => sampleRate ctx * defaultDurationSec
  end.

(** A parameter after the hook's three-call idiom (cancel the events from
    [now] on, hold the current value at [now], ramp to [target] by
    [now + d]). *)
Definition rescheduled (now target d : Q) (a : AudioParam) : AudioParam :=
  {| value := value a;
     events := events_before now (events a) ++
               [SetValueAtTime (value a) now;
                LinearRampToValueAtTime target (now + d)] |}.

(** The output gain parameter [startMode] leaves on a new graph: silent at
    [now], then the ramp to [target] over the fade time. *)
Definition faded_in (now target : Q) : AudioParam :=
  {| value := 1;
     events := [SetValueAtTime 0 now;
                LinearRampToValueAtTime target (now + FADE_TIME)] |}.

(** The nodes of a rain or wind graph once [startMode] has completed: the
    output gain faded in and the noise source started. *)
Definition started_nodes (mode : SoundMode) (ctx : AudioContext)
    (random : nat -> Q) (rc : nat) (now target : Q) : list AudioNode :=
  <[1%nat := AudioBufferSourceNode
               (Some (noiseBuffer ctx pink (fun k => random (rc + k)%nat)))
               true playing]>
    (<[0%nat := GainNode (faded_in now target)]>
       (built_nodes mode ctx random rc)).

(** The nodes of a waves graph when [startMode] raises: the output gain held
    at 0 with no ramp behind it. *)
Definition stalled_nodes (ctx : AudioContext) (random : nat -> Q) (rc : nat)
    (now : Q) : list AudioNode :=
  <[0%nat := GainNode {| value := 1; events := [SetValueAtTime 0 now] |}]>
    (built_nodes waves ctx random rc).

(** The world after [if (ctx.state === 'suspended') ctx.resume()]. *)
Definition resume_requested (w : World) : World :=
  match contextState w with
  | suspended => set_contextState suspended true w
  | _ => w
  end.

(** ** The routing invariant *)

Definition is_destination (t : Target) : bool :=
  match t with
  | ToDestination => true
  | _ => false
  end.

(** The nodes connected to the context's destination. *)
Definition destination_inputs (w : World) : list NodeId :=
  map fst (List.filter (fun e => is_destination (snd e)) (edges w)).

(** A context [ctx] exists with master gain [m]: one context was ever
    created, [m] is a node of the store, and it is the only node connected to
    the destination. *)
Definition mastered (ctx : AudioContext) (m : NodeId) (w : World) : Prop :=
  audioCtxRef w = Some ctx /\
  sampleRate ctx = hardwareSampleRate w /\
  contextsCreated w = 1%nat /\
  masterGainRef w = Some m /\
  (m < length (nodes w))%nat /\
  destination_inputs w = [m].

(** At most one master gain, created with the context, and the sole route to
    the destination; the current graph never owns it. *)
Definition routed (w : World) : Prop :=
  (0 < hardwareSampleRate w)%nat /\
  match audioCtxRef w with
  | None =>
      masterGainRef w = None /\ contextsCreated w = 0%nat /\
      currentNodesRef w = None /\ destination_inputs w = []
  | Some ctx =>
      exists m, mastered ctx m w /\
                forall g, currentNodesRef w = Some g -> m ∉ graph_ids g
  end.

(** [mastered] with the current graph pinned to [cur]. *)
Definition held (ctx : AudioContext) (m : NodeId) (cur : option ModeNodes)
    (w : World) : Prop :=
  (0 < hardwareSampleRate w)%nat /\ mastered ctx m w /\
  currentNodesRef w = cur.

(** [routed] with the context and the master gain named. *)
Definition routed_by (ctx : AudioContext) (m : NodeId) (w : World) : Prop :=
  exists cur, held ctx m cur w /\
              forall g, cur = Some g -> m ∉ graph_ids g.

(** [routed], and the master gain is still [m0] if there was one. *)
Definition pinned (m0 : option NodeId) (w : World) : Prop :=
  routed w /\ forall m, m0 = Some m -> masterGainRef w = Some m.

(** From [P], the operation returns a value and world in [Q] or raises in a
    world in [E]. *)
Definition hoare {A : Type} (P : World -> Prop) (m : M A)
    (Q : A -> World -> Prop) (E : World -> Prop) : Prop :=
  forall w, P w ->
    match m w with
    | (Ok a, w') => Q a w'
    | (Throw _, w') => E w'
    end.

(** [w'] has the routing of [w]: the same refs, contexts and connections, and
    no node fewer. *)
Definition same_routing (w w' : World) : Prop :=
  hardwareSampleRate w' = hardwareSampleRate w /\
  audioCtxRef w' = audioCtxRef w /\
  masterGainRef w' = masterGainRef w /\
  contextsCreated w' = contextsCreated w /\
  currentNodesRef w' = currentNodesRef w /\
  edges w' = edges w /\
  (length (nodes w) <= length (nodes w'))%nat.

(** An operation keeps [P] on every exit, normal or exceptional. *)
Definition stable {A : Type} (P : World -> Prop) (m : M A) : Prop :=
  forall w, P w -> P (snd (m w)).

(** Node [n] carries the timeline [evs] and the clock reads [t]. *)
Definition fading (n : NodeId) (evs : list AutomationEvent) (t : Q)
    (w : World) : Prop :=
  gain_events w n = evs /\ currentTime w = t.

(** * Theorems *)

(** ** Noise generator *)

Section NoiseBounds.
Variable random : nat -> Q.
Hypothesis random_valid : valid_random random.

Lemma white_sample_bounds i : -1 <= random i * 2 - 1 /\ random i * 2 - 1 <= 1.
Proof. destruct (random_valid i). split; lra. Qed.

Lemma for_loop_invariant {St : Type} (P : St -> Prop) body :
  (forall i s, P s -> P (body i s)) ->
  forall n i s, P s -> P (@for_loop St n i body s).
Proof.
  intros Hbody n. induction n as [|n IH]; intros i s Hs; simpl; auto.
Qed.

Lemma white_body_inv len i data :
  white_inv len data -> white_inv len (white_body random i data).
Proof.
  intros [Hlen Hall]. unfold white_body. split.
  - by rewrite length_insert.
  - apply Forall_insert; [done|]. destruct (white_sample_bounds i).
    unfold within. split; lra.
Qed.

Lemma pink_body_inv len i s :
  pink_inv len s -> pink_inv len (pink_body random i s).
Proof.
  destruct s as [r data]. intros (Hr & Hlen & Hall).
  destruct Hr as (H0 & H1 & H2 & H3 & H4 & H5 & H6).
  unfold within in *. simpl in *.
  destruct (white_sample_bounds i) as [Hlo Hhi].
  set (white := random i * 2 - 1) in *.
  unfold pink_body. fold white. cbv zeta.
  split; [|split].
  - unfold pink_regs_bounded, within; simpl. repeat split; lra.
  - simpl. by rewrite length_insert.
  - simpl. apply Forall_insert; [done|]. split; lra.
Qed.

Lemma leaky_division x : x / 1.02 == x * (50 # 51).
Proof. unfold Qdiv. apply Qmult_comp; reflexivity. Qed.

Lemma brown_body_inv len i s :
  brown_inv len s -> brown_inv len (brown_body random i s).
Proof.
  destruct s as [lastOut data]. intros (Hl & Hlen & Hall).
  unfold within in *. simpl in *.
  destruct (white_sample_bounds i) as [Hlo Hhi].
  set (white := random i * 2 - 1) in *.
  unfold brown_body. fold white. cbv zeta.
  pose proof (leaky_division (lastOut + 0.02 * white)) as Hdiv.
  split; [|split]; simpl.
  - split; rewrite Hdiv; lra.
  - by rewrite length_insert.
  - apply Forall_insert; [done|]. split; rewrite Hdiv; lra.
Qed.

Lemma replicate_zero_within bound n :
  0 <= bound -> Forall (within bound) (replicate n (0 : Q)).
Proof.
  intros Hb. apply Forall_replicate. unfold within. split; lra.
Qed.

Lemma fill_channel_bounds type len :
  length (fill_channel type len random (replicate len 0)) = len /\
  Forall (within (sample_bound type))
         (fill_channel type len random (replicate len 0)).
Proof.
  destruct type; simpl.
  - apply (for_loop_invariant (white_inv len)).
    + intros. by apply white_body_inv.
    + split; [apply length_replicate | apply replicate_zero_within; lra].
  - assert (H : pink_inv len
               (for_loop len 0 (pink_body random) (pink_zero, replicate len 0))).
    { apply for_loop_invariant.
      - intros. by apply pink_body_inv.
      - split; [|split]; simpl.
        + unfold pink_regs_bounded, within; simpl. repeat split; lra.
        + apply length_replicate.
        + apply replicate_zero_within; lra. }
    destruct H as (_ & Hlen & Hall). by split.
  - assert (H : brown_inv len
               (for_loop len 0 (brown_body random) (0, replicate len 0))).
    { apply for_loop_invariant.
      - intros. by apply brown_body_inv.
      - split; [|split]; simpl.
        + unfold within. split; lra.
        + apply length_replicate.
        + apply replicate_zero_within; lra. }
    destruct H as (_ & Hlen & Hall). by split.
Qed.

End NoiseBounds.

Lemma createNoiseBuffer_ok ctx type durationSec random :
  (0 < durationSec)%nat -> (0 < sampleRate ctx)%nat ->
  createNoiseBuffer ctx type durationSec random =
    Ok {| numberOfChannels := 1;
          buf_length := sampleRate ctx * durationSec;
          buf_sampleRate := sampleRate ctx;
          channelData :=
            fill_channel type (sampleRate ctx * durationSec) random
              (replicate (sampleRate ctx * durationSec) 0) |}.
Proof.
  intros Hd Hr. unfold createNoiseBuffer, createBuffer.
  destruct (Nat.eqb_spec (sampleRate ctx * durationSec) 0) as [E|E]; [nia|].
  reflexivity.
Qed.

Lemma zero_draws_valid : valid_random zero_draws.
Proof. intros k. unfold zero_draws. split; lra. Qed.

Lemma sample_below_unit type rate k :
  Qle_bool (Qopp 1)
    (default 0
       (samples_of
          (createNoiseBuffer {| sampleRate := rate |} type 3 zero_draws)
        !! k)) = false ->
  ~ normalised type 3 rate zero_draws.
Proof.
  intros Hs (buf & Hbuf & _ & Hall). rewrite Hbuf in Hs. simpl in Hs.
  destruct (channelData buf !! k) as [x|] eqn:E; simpl in Hs.
  - apply (Forall_lookup_1 _ _ _ _ Hall) in E as [Hlo _].
    apply Qle_bool_iff in Hlo. congruence.
  - discriminate.
Qed.

(** C4, as claimed, fails: when every draw is 0 the brown buffer of 3 s at
    10 Hz has a sample below -1 at index 16, and the pink one at index 21. *)
Lemma noise_samples_leave_unit_range :
  valid_random zero_draws /\
  ~ normalised brown 3 10 zero_draws /\
  ~ normalised pink 3 10 zero_draws.
Proof.
  split; [apply zero_draws_valid|].
  split.
  - apply (sample_below_unit brown 10 16). vm_compute. reflexivity.
  - apply (sample_below_unit pink 10 21). vm_compute. reflexivity.
Qed.

(** C4, amended: for every noise type, whole duration > 0 and sample rate > 0
    and every stream of draws in [0, 1), the buffer is produced, holds
    [durationSec * sampleRate] samples, and every sample is within the bound
    of its type: 1 for white, 7.74 for pink, 3.5 for brown. *)
Theorem noise_buffer_length_and_bounds ctx type durationSec random :
  (0 < durationSec)%nat -> (0 < sampleRate ctx)%nat -> valid_random random ->
  exists buf,
    createNoiseBuffer ctx type durationSec random = Ok buf /\
    buf_length buf = (durationSec * sampleRate ctx)%nat /\
    length (channelData buf) = (durationSec * sampleRate ctx)%nat /\
    Forall (within (sample_bound type)) (channelData buf).
Proof.
  intros Hd Hr Hrand. eexists. split; [by apply createNoiseBuffer_ok|].
  simpl. destruct (fill_channel_bounds random Hrand type
                     (sampleRate ctx * durationSec)) as [Hlen Hall].
  repeat split; try done; lia.
Qed.

Lemma noise_buffer_length_and_bounds_witness :
  exists buf,
    createNoiseBuffer {| sampleRate := 10 |} pink 3 zero_draws = Ok buf /\
    buf_length buf = 30%nat /\
    length (channelData buf) = 30%nat /\
    Forall (within (sample_bound pink)) (channelData buf).
Proof.
  apply (noise_buffer_length_and_bounds {| sampleRate := 10 |} pink 3 zero_draws).
  - simpl. lia.
  - simpl. lia.
  - apply zero_draws_valid.
Defined.

(** ** Running hook code *)

Ltac munfold :=
  unfold mbind, mret, mthrow, M_bind, M_ret, M_throw, gets, modify in *.

Lemma bind_run {A B : Type} (m : M A) (k : A -> M B) w :
  (m ≫= k) w =
  match m w with
  | (Ok a, w') => k a w'
  | (Throw e, w') => (Throw e, w')
  end.
Proof. reflexivity. Qed.

(** *** Timelines *)

Lemma insertEvent_last e evs :
  Forall (fun x => ev_time x <= ev_time e) evs ->
  insertEvent e evs = evs ++ [e].
Proof.
  induction 1 as [|x evs Hx _ IH]; simpl; [done|].
  apply Qle_bool_iff in Hx. by rewrite Hx, IH.
Qed.

Lemma events_before_spec t evs :
  Forall (fun x => ev_time x < t) (events_before t evs).
Proof.
  unfold events_before. induction evs as [|x evs IH]; simpl; [done|].
  destruct (Qle_bool t (ev_time x)) eqn:E; simpl; [done|].
  constructor; [|done].
  apply Qnot_le_lt. intros Hle. apply Qle_bool_iff in Hle. congruence.
Qed.

(** What the hook's three-call idiom leaves on a timeline: the events before
    [now], the value held at [now], and the ramp. *)
Lemma reschedule_events now v target d evs :
  0 <= d ->
  insertEvent (LinearRampToValueAtTime target (now + d))
    (insertEvent (SetValueAtTime v now) (events_before now evs)) =
  events_before now evs ++
    [SetValueAtTime v now; LinearRampToValueAtTime target (now + d)].
Proof.
  intros Hd. pose proof (events_before_spec now evs) as Hb.
  rewrite (insertEvent_last (SetValueAtTime v now)).
  - rewrite insertEvent_last; [by rewrite <- app_assoc|].
    apply Forall_app. split.
    + eapply Forall_impl; [exact Hb|]. simpl. intros x Hx. lra.
    + repeat constructor. simpl. lra.
  - eapply Forall_impl; [exact Hb|]. simpl. intros x Hx. lra.
Qed.

Lemma alter_alter_same {A : Type} (f g : A -> A) (i : nat) (l : list A) :
  alter f i (alter g i l) = alter (fun x => f (g x)) i l.
Proof.
  revert i. induction l as [|x l IH]; intros [|i]; simpl; [done..|].
  f_equal. apply IH.
Qed.

Lemma alter_lookup {A : Type} (f : A -> A) (i : nat) (l : list A) x :
  l !! i = Some x -> alter f i l = <[i := f x]> l.
Proof.
  revert i. induction l as [|y l IH]; intros [|i] H; simpl in *;
    try discriminate.
  - by injection H as ->.
  - f_equal. by apply IH.
Qed.

Lemma ramp_from_current_run n a target d w :
  nodes w !! n = Some (GainNode a) -> 0 <= d ->
  (cancelScheduledValues n Gain (currentTime w);;
   v ← get_value n Gain;
   setValueAtTime n Gain v (currentTime w);;
   linearRampToValueAtTime n Gain target (currentTime w + d)) w =
  (Ok tt,
   set_nodes (<[n := GainNode (rescheduled (currentTime w) target d a)]>
                (nodes w)) w).
Proof.
  intros Hn Hd.
  unfold cancelScheduledValues, setValueAtTime, linearRampToValueAtTime,
    get_value, schedule, alter_node.
  munfold. unfold set_nodes. simpl.
  rewrite list_lookup_alter_eq, Hn. simpl.
  rewrite !alter_alter_same. rewrite (alter_lookup _ _ _ _ Hn). simpl.
  unfold rescheduled. by rewrite reschedule_events.
Qed.

(** ** The facade: frame and clamping properties *)

(** C7: [setMode(m)] on a closure with [enabled = false] returns normally and
    changes nothing but the stored mode: the audio context, the master gain,
    the current graph, every node, connection and timeline, the enabled flag
    and the volume are those of the world before the call. *)
Theorem setMode_disabled_stores_only c m w :
  enabled c = false ->
  setMode c m w = (Ok tt, set_modeState m w) /\
  modeState (snd (setMode c m w)) = m /\
  enabledState (snd (setMode c m w)) = enabledState w /\
  volumeState (snd (setMode c m w)) = volumeState w /\
  audioCtxRef (snd (setMode c m w)) = audioCtxRef w /\
  masterGainRef (snd (setMode c m w)) = masterGainRef w /\
  currentNodesRef (snd (setMode c m w)) = currentNodesRef w /\
  contextsCreated (snd (setMode c m w)) = contextsCreated w /\
  nodes (snd (setMode c m w)) = nodes w /\
  edges (snd (setMode c m w)) = edges w.
Proof.
  intros He.
  assert (E : setMode c m w = (Ok tt, set_modeState m w)).
  { unfold setMode. munfold. by rewrite He. }
  rewrite E. by repeat split.
Qed.

Lemma setMode_disabled_stores_only_witness :
  enabled (closure_of (initialWorld 44100 zero_draws)) = false /\
  setMode (closure_of (initialWorld 44100 zero_draws)) waves
    (initialWorld 44100 zero_draws) =
  (Ok tt, set_modeState waves (initialWorld 44100 zero_draws)).
Proof.
  split; [reflexivity|].
  apply (setMode_disabled_stores_only
           (closure_of (initialWorld 44100 zero_draws)) waves
           (initialWorld 44100 zero_draws)).
  reflexivity.
Defined.

(** C10: [setEnabled(false)] in a world whose [audioCtxRef] is still null
    returns normally and only records [enabled = false]: no context or master
    gain is created, no node, connection or timeline changes, and the current
    graph is untouched. *)
Theorem setEnabled_false_without_context c w :
  audioCtxRef w = None ->
  setEnabled c false w = (Ok tt, set_enabledState false w) /\
  enabledState (snd (setEnabled c false w)) = false /\
  audioCtxRef (snd (setEnabled c false w)) = None /\
  masterGainRef (snd (setEnabled c false w)) = masterGainRef w /\
  currentNodesRef (snd (setEnabled c false w)) = currentNodesRef w /\
  contextsCreated (snd (setEnabled c false w)) = contextsCreated w /\
  nodes (snd (setEnabled c false w)) = nodes w /\
  edges (snd (setEnabled c false w)) = edges w.
Proof.
  intros Hc.
  assert (E : setEnabled c false w = (Ok tt, set_enabledState false w)).
  { unfold setEnabled, stopAll. munfold. simpl. by rewrite Hc. }
  rewrite E. by repeat split.
Qed.

Lemma setEnabled_false_without_context_witness :
  audioCtxRef (initialWorld 44100 zero_draws) = None /\
  setEnabled (closure_of (initialWorld 44100 zero_draws)) false
    (initialWorld 44100 zero_draws) =
  (Ok tt, set_enabledState false (initialWorld 44100 zero_draws)).
Proof.
  split; [reflexivity|].
  apply (setEnabled_false_without_context
           (closure_of (initialWorld 44100 zero_draws))
           (initialWorld 44100 zero_draws)).
  reflexivity.
Defined.

Lemma clamp_bounds v :
  0 <= Qmax 0 (Qmin 1 v) /\ Qmax 0 (Qmin 1 v) <= 1 /\
  (v < 0 -> Qmax 0 (Qmin 1 v) == 0) /\
  (1 < v -> Qmax 0 (Qmin 1 v) == 1) /\
  (0 <= v /\ v <= 1 -> Qmax 0 (Qmin 1 v) == v).
Proof.
  destruct (Q.max_spec 0 (Qmin 1 v)) as [[H1 E1]|[H1 E1]];
    destruct (Q.min_spec 1 v) as [[H2 E2]|[H2 E2]];
    rewrite E1 in *; try rewrite E2 in *;
    repeat split; intros; try reflexivity; lra.
Qed.

Lemma setVolume_run v w :
  setVolume v w =
  match audioCtxRef w, currentNodesRef w with
  | Some _, Some g =>
      (cancelScheduledValues (gain g) Gain (currentTime w);;
       x ← get_value (gain g) Gain;
       setValueAtTime (gain g) Gain x (currentTime w);;
       linearRampToValueAtTime (gain g) Gain (Qmax 0 (Qmin 1 v))
         (currentTime w + 0.2))
        (set_volumeState (Qmax 0 (Qmin 1 v)) w)
  | _, _ => (Ok tt, set_volumeState (Qmax 0 (Qmin 1 v)) w)
  end.
Proof.
  unfold setVolume. munfold. simpl.
  destruct (audioCtxRef w), (currentNodesRef w); reflexivity.
Qed.

Lemma setVolume_ok v w : fst (setVolume v w) = Ok tt.
Proof.
  rewrite setVolume_run.
  destruct (audioCtxRef w), (currentNodesRef w); reflexivity.
Qed.

Lemma setVolume_frame v w :
  volumeState (snd (setVolume v w)) = Qmax 0 (Qmin 1 v) /\
  edges (snd (setVolume v w)) = edges w /\
  masterGainRef (snd (setVolume v w)) = masterGainRef w /\
  currentNodesRef (snd (setVolume v w)) = currentNodesRef w /\
  forall n, (forall g, currentNodesRef w = Some g -> gain g <> n) ->
            nodes (snd (setVolume v w)) !! n = nodes w !! n.
Proof.
  rewrite setVolume_run.
  destruct (audioCtxRef w) eqn:Hc, (currentNodesRef w) as [g|] eqn:Hg;
    try by repeat split.
  unfold cancelScheduledValues, setValueAtTime, linearRampToValueAtTime,
    get_value, schedule, alter_node.
  munfold. simpl. do 4 (split; [done|]).
  intros n Hn. rewrite !list_lookup_alter_ne; [done|by apply Hn..].
Qed.

(** C6: for every rational [v], [setVolume(v)] returns normally; the value it
    stores is [v] clamped to [0, 1]; with a context and a current graph it
    replaces the pending events of that graph's output gain by a hold of the
    gain's current value at the current time and a linear ramp to the clamped
    value ending 0.2 s later; every other node, the master gain among them, and
    every connection stay as they were. *)
Theorem setVolume_clamps_and_ramps v w :
  fst (setVolume v w) = Ok tt /\
  volumeState (snd (setVolume v w)) = Qmax 0 (Qmin 1 v) /\
  (0 <= Qmax 0 (Qmin 1 v) /\ Qmax 0 (Qmin 1 v) <= 1 /\
   (v < 0 -> Qmax 0 (Qmin 1 v) == 0) /\
   (1 < v -> Qmax 0 (Qmin 1 v) == 1) /\
   (0 <= v /\ v <= 1 -> Qmax 0 (Qmin 1 v) == v)) /\
  (forall ctx g a,
     audioCtxRef w = Some ctx -> currentNodesRef w = Some g ->
     nodes w !! gain g = Some (GainNode a) ->
     snd (setVolume v w) =
     set_nodes
       (<[gain g := GainNode (rescheduled (currentTime w) (Qmax 0 (Qmin 1 v))
                                0.2 a)]> (nodes w))
       (set_volumeState (Qmax 0 (Qmin 1 v)) w)) /\
  (audioCtxRef w = None \/ currentNodesRef w = None ->
   snd (setVolume v w) = set_volumeState (Qmax 0 (Qmin 1 v)) w) /\
  edges (snd (setVolume v w)) = edges w /\
  masterGainRef (snd (setVolume v w)) = masterGainRef w /\
  (forall n, (forall g, currentNodesRef w = Some g -> gain g <> n) ->
             nodes (snd (setVolume v w)) !! n = nodes w !! n).
Proof.
  destruct (setVolume_frame v w) as (Hv & He & Hm & _ & Hn).
  split; [apply setVolume_ok|]. split; [done|].
  split; [apply clamp_bounds|].
  split; [|split; [|by repeat split]].
  - intros ctx g a Hc Hg Ha. rewrite setVolume_run, Hc, Hg.
    pose proof (ramp_from_current_run (gain g) a (Qmax 0 (Qmin 1 v)) 0.2
                  (set_volumeState (Qmax 0 (Qmin 1 v)) w) Ha) as R.
    simpl in R. rewrite R by lra. reflexivity.
  - rewrite setVolume_run. intros [H|H]; rewrite H; [done|].
    by destruct (audioCtxRef w).
Qed.

(** ** Symbolic runs over a store with an arbitrary prefix *)

Lemma bind_assoc_run {A B C : Type} (m : M A) (k1 : A -> M B) (k2 : B -> M C) w :
  ((m ≫= k1) ≫= k2) w = (m ≫= (fun a => k1 a ≫= k2)) w.
Proof. unfold mbind, M_bind. by destruct (m w) as [[a|e] w']. Qed.

Lemma ret_bind_run {A B : Type} (a : A) (k : A -> M B) w :
  (mret a ≫= k) w = k a w.
Proof. reflexivity. Qed.

Lemma ret_run {A : Type} (a : A) w : (mret a : M A) w = (Ok a, w).
Proof. reflexivity. Qed.

Lemma with_audio_id w : w = with_audio w (nodes w) (edges w) (randomCalls w).
Proof. by destruct w. Qed.

Lemma newNode_audio n w ns es rc :
  newNode n (with_audio w ns es rc) =
  (Ok (length ns), with_audio w (ns ++ [n]) es rc).
Proof. reflexivity. Qed.

Lemma alter_node_audio f i w ns es rc :
  alter_node f i (with_audio w ns es rc) =
  (Ok tt, with_audio w (alter f i ns) es rc).
Proof. reflexivity. Qed.

Lemma connect_audio a t w ns es rc :
  connect a t (with_audio w ns es rc) =
  (Ok tt, with_audio w ns (es ++ [(a, t)]) rc).
Proof. reflexivity. Qed.

Lemma createNoiseBufferM_audio ctx type w ns es rc :
  (0 < sampleRate ctx)%nat ->
  createNoiseBufferM ctx type (with_audio w ns es rc) =
  (Ok (noiseBuffer ctx type (fun k => randomSource w (rc + k)%nat)),
   with_audio w ns es (rc + sampleRate ctx * defaultDurationSec)).
Proof.
  intros H. unfold createNoiseBufferM.
  rewrite createNoiseBuffer_ok; [done| |done].
  unfold defaultDurationSec. lia.
Qed.

Lemma start_audio i pb w ns es rc :
  ns !! i ≫= playback_of = Some pb -> started pb = false ->
  start i (with_audio w ns es rc) =
  (Ok tt,
   with_audio w
     (alter (set_playback {| started := true; stopAt := stopAt pb |}) i ns)
     es rc).
Proof. intros H1 H2. unfold start. simpl. by rewrite H1, H2. Qed.

Lemma connect_master_audio g m w ns es rc :
  masterGainRef w = Some m ->
  connect_master g (with_audio w ns es rc) =
  (Ok tt, with_audio w ns (es ++ [(g, ToNode m)]) rc).
Proof. intros H. unfold connect_master. munfold. simpl. by rewrite H. Qed.

Lemma lookup_app_plus {A : Type} (l s : list A) k :
  (l ++ s) !! (length l + k)%nat = s !! k.
Proof. rewrite lookup_app_r by lia. f_equal. lia. Qed.

Lemma lookup_app_len {A : Type} (l s : list A) :
  (l ++ s) !! (length l) = s !! 0%nat.
Proof. rewrite <- (Nat.add_0_r (length l)) at 1. apply lookup_app_plus. Qed.

Lemma alter_app_len {A : Type} f (l s : list A) :
  alter f (length l) (l ++ s) = l ++ alter f 0%nat s.
Proof. rewrite <- (Nat.add_0_r (length l)) at 1. apply alter_app_r. Qed.

Lemma length_app_cons {A : Type} (l : list A) x s :
  length (l ++ x :: s) = (length l + S (length s))%nat.
Proof. by rewrite length_app. Qed.

Lemma app_app_single {A : Type} (l s : list A) x :
  (l ++ s) ++ [x] = l ++ (s ++ [x]).
Proof. by rewrite <- app_assoc. Qed.

Ltac store_norm :=
  repeat first
    [ rewrite app_app_single
    | rewrite length_app_cons
    | rewrite alter_app_r
    | rewrite alter_app_len
    | rewrite lookup_app_plus
    | rewrite lookup_app_len ];
  cbn [length app alter list_alter lookup list_lookup set_loop set_buffer
       set_type update_param set_playback playback_of mbind option_bind
       sampleRate started stopAt value events param idle Nat.add].

Ltac run1 :=
  first
    [ rewrite bind_assoc_run
    | rewrite ret_bind_run
    | rewrite bind_run;
      first
        [ rewrite newNode_audio
        | rewrite alter_node_audio
        | rewrite connect_audio
        | rewrite createNoiseBufferM_audio by (simpl; lia)
        | rewrite (connect_master_audio _ _ _ _ _ _ ltac:(eassumption))
        | erewrite start_audio; [| store_norm; reflexivity | reflexivity] ] ];
  cbv beta iota; store_norm.

(** [buildModeNodes] on a store with [length ns] nodes: it returns normally,
    appends the nodes of the mode and makes its connections, the last one from
    the output gain to the master gain. *)
Lemma buildModeNodes_run mode r w ns es rc m :
  masterGainRef w = Some m ->
  buildModeNodes {| sampleRate := S r |} mode (with_audio w ns es rc) =
  (Ok (built_graph mode (length ns)),
   with_audio w
     (ns ++ built_nodes mode {| sampleRate := S r |} (randomSource w) rc)
     (es ++ built_edges mode (length ns) m)
     (rc + built_draws mode {| sampleRate := S r |})).
Proof.
  intros Hm. unfold buildModeNodes.
  unfold createGain, createBufferSource, createBiquadFilter, createOscillator,
    createStereoPanner, set_value.
  destruct mode; repeat run1; rewrite ret_run;
    unfold built_graph, built_nodes, built_edges, built_draws, playing, param;
    cbn [sampleRate]; rewrite ?Nat.add_assoc; reflexivity.
Qed.

(** ** Stability of the routing invariant *)

Lemma stable_bind {A B : Type} P (m : M A) (k : A -> M B) :
  stable P m -> (forall a, stable P (k a)) -> stable P (m ≫= k).
Proof.
  intros Hm Hk w Hw. rewrite bind_run. specialize (Hm w Hw).
  destruct (m w) as [[a|e] w']; simpl in *; [by apply Hk|done].
Qed.

Lemma stable_ret {A : Type} P (a : A) : stable P (mret a : M A).
Proof. by intros w Hw. Qed.

Lemma stable_gets {A : Type} P (f : World -> A) : stable P (gets f).
Proof. by intros w Hw. Qed.

Lemma stable_modify P (f : World -> World) :
  (forall w, P w -> P (f w)) -> stable P (modify f).
Proof. intros Hf w Hw. by apply Hf. Qed.

Lemma stable_try_ignore P (m : M unit) : stable P m -> stable P (try_ignore m).
Proof. intros Hm w Hw. by apply Hm. Qed.

Lemma stable_on_some {A : Type} P (o : option A) (f : A -> M unit) :
  (forall a, o = Some a -> stable P (f a)) -> stable P (on_some o f).
Proof. intros Hf. destruct o; [by apply Hf|apply stable_ret]. Qed.

Lemma destination_inputs_edges w w' :
  edges w' = edges w -> destination_inputs w' = destination_inputs w.
Proof. unfold destination_inputs. by intros ->. Qed.

Lemma destination_inputs_app w es :
  Forall (fun e => is_destination (snd e) = false) es ->
  destination_inputs (set_edges (edges w ++ es) w) = destination_inputs w.
Proof.
  intros H. unfold destination_inputs. simpl.
  rewrite List.filter_app, map_app.
  assert (E : List.filter (fun e => is_destination (snd e)) es = []).
  { induction H as [|e es He _ IH]; simpl; [done|]. by rewrite He. }
  by rewrite E, app_nil_r.
Qed.

Lemma destination_inputs_disconnect w n m :
  destination_inputs w = [m] -> n <> m ->
  destination_inputs
    (set_edges (List.filter (fun e => negb (fst e =? n)%nat) (edges w)) w) = [m].
Proof.
  unfold destination_inputs. simpl. intros H Hn.
  assert (E : forall es,
    map fst (List.filter (fun e => is_destination (snd e))
               (List.filter (fun e => negb (fst e =? n)%nat) es)) =
    List.filter (fun a => negb (a =? n)%nat)
      (map fst (List.filter (fun e => is_destination (snd e)) es))).
  { induction es as [|[a t] es IH]; simpl; [done|].
    destruct (a =? n)%nat eqn:Ea; destruct (is_destination t) eqn:Et; simpl;
      rewrite ?Et, ?Ea; simpl; by rewrite IH. }
  rewrite E, H. simpl.
  destruct (Nat.eqb_spec m n); [congruence|done].
Qed.

Section Held.
Variables (ctx : AudioContext) (m : NodeId) (cur : option ModeNodes).

Lemma held_alter_node f n : stable (held ctx m cur) (alter_node f n).
Proof.
  apply stable_modify. intros w (Hr & (H1 & H2 & H3 & H4 & H5 & H6) & Hc).
  repeat split; simpl; try done. by rewrite length_alter.
Qed.

Lemma held_schedule n p f : stable (held ctx m cur) (schedule n p f).
Proof. apply held_alter_node. Qed.

Lemma held_disconnect n : n <> m -> stable (held ctx m cur) (disconnect n).
Proof.
  intros Hn. apply stable_modify.
  intros w (Hr & (H1 & H2 & H3 & H4 & H5 & H6) & Hc).
  repeat split; simpl; try done. by apply destination_inputs_disconnect.
Qed.

Lemma held_start n : stable (held ctx m cur) (start n).
Proof.
  intros w Hw. unfold start.
  destruct (nodes w !! n ≫= playback_of) as [pb|]; [|done].
  destruct (started pb); [done|]. by apply held_alter_node.
Qed.

Lemma held_stop n t : stable (held ctx m cur) (stop n t).
Proof.
  intros w Hw. unfold stop.
  destruct (nodes w !! n ≫= playback_of) as [pb|]; [|done].
  destruct (started pb); [|done]. by apply held_alter_node.
Qed.

Lemma held_resume : stable (held ctx m cur) resume.
Proof.
  apply stable_modify. intros w (Hr & (H1 & H2 & H3 & H4 & H5 & H6) & Hc).
  by repeat split.
Qed.

End Held.

Lemma opt_ids_elem (o : option NodeId) os i :
  o ∈ os -> o = Some i -> i ∈ opt_ids os.
Proof.
  intros Ho ->. unfold opt_ids. apply list_elem_of_omap. by exists (Some i).
Qed.

Lemma graph_ids_owned g i :
  source g = i \/ gain g = i \/ filter g = Some i \/ lfoOsc g = Some i \/
  lfoGain g = Some i \/ spraySource g = Some i \/ bodyGain g = Some i \/
  sprayGain g = Some i \/ masterFilter g = Some i \/ panNode g = Some i \/
  panOsc g = Some i \/ panGain g = Some i ->
  i ∈ graph_ids g.
Proof.
  unfold graph_ids.
  intros [<-|[<-|H]]; [apply list_elem_of_here|
                       apply list_elem_of_further, list_elem_of_here|].
  do 2 apply list_elem_of_further.
  repeat (destruct H as [H|H];
          [eapply opt_ids_elem; [|exact H]; by repeat constructor|]).
  eapply opt_ids_elem; [|exact H]. by repeat constructor.
Qed.

Ltac stab :=
  lazymatch goal with
  | |- stable _ (mbind _ _) => apply stable_bind; [stab | intros ?; stab]
  | |- stable _ (mret _) => apply stable_ret
  | |- stable _ (gets _) => apply stable_gets
  | |- stable _ (get_value _ _) => apply stable_gets
  | |- stable _ (try_ignore _) => apply stable_try_ignore; stab
  | |- stable _ (on_some _ _) => apply stable_on_some; intros ? ?; stab
  | |- stable _ (schedule _ _ _) => apply held_schedule
  | |- stable _ (alter_node _ _) => apply held_alter_node
  | |- stable _ (stop _ _) => apply held_stop
  | |- stable _ (start _) => apply held_start
  | |- stable _ resume => apply held_resume
  | |- stable _ (if ?b then _ else _) => destruct b; stab
  | |- _ => idtac
  end.

Lemma held_stopModeNodes ctx m cur g ctx' fadeOut :
  m ∉ graph_ids g ->
  stable (held ctx m cur) (stopModeNodes (Some g) ctx' fadeOut).
Proof.
  intros Hm.
  assert (Hne : forall i, i ∈ graph_ids g -> i <> m) by (intros i Hi ->; done).
  unfold stopModeNodes.
  unfold cancelScheduledValues, setValueAtTime, linearRampToValueAtTime.
  stab;
    try (apply held_disconnect, Hne, graph_ids_owned; tauto).
Qed.

Lemma routed_same w w' : same_routing w w' -> routed w -> routed w'.
Proof.
  intros (Hr & Hc & Hm & Hn & Hg & He & Hl) [Hrate H].
  unfold routed, mastered in *.
  rewrite Hr, Hc, Hm, Hn, Hg, (destination_inputs_edges w w' He).
  split; [done|]. destruct (audioCtxRef w); [|done].
  destruct H as (m & (H1 & H2 & H3 & H4 & H5 & H6) & H7).
  exists m. repeat split; try done. lia.
Qed.

Lemma held_routed ctx m cur w :
  held ctx m cur w -> (forall g, cur = Some g -> m ∉ graph_ids g) -> routed w.
Proof.
  intros (Hr & Hm & Hc) Hg. split; [done|].
  destruct Hm as (H1 & Hm'). rewrite H1. exists m.
  split; [by split|]. intros g. rewrite Hc. apply Hg.
Qed.

Lemma snd_bind {A B : Type} (m : M A) (k : A -> M B) w :
  snd ((m ≫= k) w) =
  match m w with
  | (Ok a, w') => snd (k a w')
  | (Throw _, w') => w'
  end.
Proof. rewrite bind_run. by destruct (m w) as [[a|e] w']. Qed.

(** [ensureContext] with no context yet: the context and the master gain
    are created together, the master gain at a fresh index and as the newest
    connection, the only one made, to the destination. *)
Lemma ensureContext_fresh w :
  audioCtxRef w = None ->
  fst (ensureContext w) = Ok {| sampleRate := hardwareSampleRate w |} /\
  audioCtxRef (snd (ensureContext w)) =
    Some {| sampleRate := hardwareSampleRate w |} /\
  masterGainRef (snd (ensureContext w)) = Some (length (nodes w)) /\
  contextsCreated (snd (ensureContext w)) = S (contextsCreated w) /\
  currentNodesRef (snd (ensureContext w)) = currentNodesRef w /\
  hardwareSampleRate (snd (ensureContext w)) = hardwareSampleRate w /\
  length (nodes (snd (ensureContext w))) = S (length (nodes w)) /\
  edges (snd (ensureContext w)) =
    edges w ++ [(length (nodes w), ToDestination)].
Proof.
  intros H. unfold ensureContext. rewrite H.
  unfold createGain, newNode, set_value, alter_node, connect. munfold. simpl.
  repeat split. rewrite length_alter, length_app. simpl. lia.
Qed.

Lemma ensureContext_present w ctx :
  audioCtxRef w = Some ctx -> ensureContext w = (Ok ctx, w).
Proof. intros H. unfold ensureContext. by rewrite H. Qed.

Lemma ensureContext_spec w :
  routed w ->
  exists ctx m,
    fst (ensureContext w) = Ok ctx /\
    held ctx m (currentNodesRef w) (snd (ensureContext w)) /\
    (forall g, currentNodesRef w = Some g -> m ∉ graph_ids g).
Proof.
  intros [Hr H]. destruct (audioCtxRef w) as [ctx|] eqn:Hc.
  - destruct H as (m & Hm & Hg). exists ctx, m.
    rewrite (ensureContext_present w ctx Hc). simpl.
    split; [done|]. split; [|done]. repeat split; try done.
    all: by destruct Hm as (? & ? & ? & ? & ? & ?).
  - destruct H as (Hm & Hn & Hg & Hd).
    destruct (ensureContext_fresh w Hc)
      as (E1 & E2 & E3 & E4 & E5 & E6 & E7 & E8).
    exists {| sampleRate := hardwareSampleRate w |}, (length (nodes w)).
    split; [done|]. split; [|by rewrite Hg].
    unfold held, mastered. rewrite E2, E3, E4, E5, E6, E7, Hn.
    repeat split; try done; try lia.
    unfold destination_inputs in *. rewrite E8, List.filter_app, map_app, Hd.
    reflexivity.
Qed.

Lemma resumeContextIfNeeded_spec w :
  routed w ->
  exists ctx m,
    fst (resumeContextIfNeeded w) = Ok ctx /\
    held ctx m (currentNodesRef w) (snd (resumeContextIfNeeded w)) /\
    (forall g, currentNodesRef w = Some g -> m ∉ graph_ids g).
Proof.
  intros Hw. destruct (ensureContext_spec w Hw) as (ctx & m & E & Hh & Hg).
  exists ctx, m. unfold resumeContextIfNeeded. rewrite bind_run.
  destruct (ensureContext w) as [r w1]. simpl in E, Hh. subst r.
  munfold. simpl.
  destruct (contextState w1); simpl; repeat split; try done.
  all: destruct Hh as (? & (? & ? & ? & ? & ? & ?) & ?); done.
Qed.

Lemma hoare_bind {A B : Type} P (m : M A) Q (k : A -> M B) R E :
  hoare P m Q E -> (forall a, hoare (Q a) (k a) R E) -> hoare P (m ≫= k) R E.
Proof.
  intros Hm Hk w Hw. rewrite bind_run. specialize (Hm w Hw).
  destruct (m w) as [[a|e] w']; [by apply Hk|done].
Qed.

Lemma hoare_stable {A : Type} P (m : M A) :
  stable P m -> hoare P m (fun _ => P) P.
Proof.
  intros Hm w Hw. specialize (Hm w Hw). by destruct (m w) as [[a|e] w'].
Qed.

Lemma hoare_conseq {A : Type} (P P' : World -> Prop) (m : M A)
    (Q Q' : A -> World -> Prop) (E E' : World -> Prop) :
  hoare P m Q E ->
  (forall w, P' w -> P w) -> (forall a w, Q a w -> Q' a w) ->
  (forall w, E w -> E' w) ->
  hoare P' m Q' E'.
Proof.
  intros H HP HQ HE w Hw. specialize (H w (HP w Hw)).
  destruct (m w) as [[a|e] w']; auto.
Qed.

Lemma hoare_stable_to {A : Type} P (m : M A) (Q : A -> World -> Prop) E :
  stable P m -> (forall a w, P w -> Q a w) -> (forall w, P w -> E w) ->
  hoare P m Q E.
Proof.
  intros Hm HQ HE. eapply hoare_conseq; [by apply hoare_stable|done|..].
  - intros a w. apply HQ.
  - apply HE.
Qed.

(** [buildModeNodes] under a master gain: it returns the summary graph, whose
    nodes are all fresh, and keeps the routing. *)
Lemma buildModeNodes_held ctx m cur mode :
  hoare (held ctx m cur) (buildModeNodes ctx mode)
    (fun g w => held ctx m cur w /\ (m ∉ graph_ids g) /\
                ((gain g, ToNode m) ∈ edges w))
    (held ctx m cur).
Proof.
  intros w (Hr & (H1 & H2 & H3 & H4 & H5 & H6) & Hc).
  destruct ctx as [rate]. simpl in H2. subst rate.
  destruct (hardwareSampleRate w) as [|r] eqn:Hrate; [lia|].
  pose proof (buildModeNodes_run mode r w (nodes w) (edges w)
                (randomCalls w) m H4) as R.
  rewrite <- with_audio_id in R. rewrite R. clear R.
  split; [|split].
  - unfold held, mastered, with_audio. simpl. rewrite Hrate.
    repeat split; try done.
    + rewrite length_app. lia.
    + change (destination_inputs
                (set_edges (edges w ++ built_edges mode (length (nodes w)) m) w)
              = [m]).
      rewrite destination_inputs_app; [done|].
      destruct mode; simpl; by repeat constructor.
  - intros Hin. assert (Hge : Forall (fun i => length (nodes w) <= i)%nat
                                (graph_ids (built_graph mode (length (nodes w))))).
    { destruct mode; unfold graph_ids, opt_ids; simpl;
        repeat constructor; lia. }
    rewrite Forall_forall in Hge. specialize (Hge m Hin). lia.
  - unfold with_audio. simpl. apply elem_of_app. right.
    destruct mode; simpl; repeat first [apply list_elem_of_here | apply list_elem_of_further].
Qed.

Lemma hoare_bind_stable {A B : Type} P (m : M A) (k : A -> M B) R E :
  stable P m -> (forall w, P w -> E w) -> (forall a, hoare P (k a) R E) ->
  hoare P (m ≫= k) R E.
Proof.
  intros Hm HE Hk. eapply hoare_bind; [|exact Hk].
  by apply hoare_stable_to.
Qed.

Lemma held_set_current ctx m cur cur' w :
  held ctx m cur w -> held ctx m cur' (set_currentNodesRef cur' w).
Proof.
  intros (Hr & (H1 & H2 & H3 & H4 & H5 & H6) & Hc). by repeat split.
Qed.

Lemma routed_by_routed ctx m w : routed_by ctx m w -> routed w.
Proof. intros (cur & Hh & Hf). by apply (held_routed ctx m cur). Qed.

Lemma routed_by_master ctx m w : routed_by ctx m w -> masterGainRef w = Some m.
Proof. by intros (cur & (_ & (_ & _ & _ & H & _) & _) & _). Qed.

(** The body of [startMode] after the context is ensured. *)
Lemma startMode_body_routed ctx m cur c newMode :
  (forall g, cur = Some g -> m ∉ graph_ids g) ->
  hoare (held ctx m cur)
    (now ← gets currentTime;
     st ← gets contextState;
     match st with
     | suspended => resume
     | _ => mret tt
     end;;
     oldNodes ← gets currentNodesRef;
     match oldNodes with
     | Some _ => stopModeNodes oldNodes ctx true
     | None => mret tt
     end;;
     nodes ← buildModeNodes ctx newMode;
     modify (set_currentNodesRef (Some nodes));;
     setValueAtTime (gain nodes) Gain 0 now;;
     start (source nodes);;
     linearRampToValueAtTime (gain nodes) Gain
       (if enabled c then volume c else 0) (now + FADE_TIME))
    (fun _ => routed_by ctx m) (routed_by ctx m).
Proof.
  intros Hf.
  assert (HE : forall w, held ctx m cur w -> routed_by ctx m w)
    by (intros w Hw; by exists cur).
  apply hoare_bind_stable; [apply stable_gets|done|intros now].
  apply hoare_bind_stable; [apply stable_gets|done|intros st].
  apply hoare_bind_stable; [destruct st; stab|done|intros _].
  eapply hoare_bind with (Q := fun old w => held ctx m cur w /\ old = cur).
  { intros w Hw. simpl. split; [done|]. by destruct Hw as (_ & _ & ->). }
  intros old w [Hw ->]. revert w Hw.
  change (hoare (held ctx m cur)
    (match cur with
     | Some _ => stopModeNodes cur ctx true
     | None => mret tt
     end;;
     nodes ← buildModeNodes ctx newMode;
     modify (set_currentNodesRef (Some nodes));;
     setValueAtTime (gain nodes) Gain 0 now;;
     start (source nodes);;
     linearRampToValueAtTime (gain nodes) Gain
       (if enabled c then volume c else 0) (now + FADE_TIME))
    (fun _ => routed_by ctx m) (routed_by ctx m)).
  apply hoare_bind_stable; [|done|intros _].
  { destruct cur as [g|]; [|apply stable_ret].
    apply held_stopModeNodes. by apply Hf. }
  eapply hoare_bind.
  { eapply hoare_conseq; [apply buildModeNodes_held|done| |exact HE].
    intros g w H. exact H. }
  intros g w (Hw & Hg & _). revert w Hw.
  change (hoare (held ctx m cur)
    (modify (set_currentNodesRef (Some g));;
     setValueAtTime (gain g) Gain 0 now;;
     start (source g);;
     linearRampToValueAtTime (gain g) Gain
       (if enabled c then volume c else 0) (now + FADE_TIME))
    (fun _ => routed_by ctx m) (routed_by ctx m)).
  assert (HE' : forall w, held ctx m (Some g) w -> routed_by ctx m w).
  { intros w Hw. exists (Some g). split; [done|]. by intros g' [= <-]. }
  eapply hoare_bind with (Q := fun _ => held ctx m (Some g)).
  { intros w Hw. simpl. by apply (held_set_current ctx m cur). }
  intros _.
  unfold setValueAtTime, linearRampToValueAtTime.
  apply hoare_stable_to; [stab|intros _; exact HE'|exact HE'].
Qed.

Lemma resumeContextIfNeeded_pinned w m0 :
  pinned m0 w ->
  exists ctx m,
    fst (resumeContextIfNeeded w) = Ok ctx /\
    held ctx m (currentNodesRef w) (snd (resumeContextIfNeeded w)) /\
    (forall g, currentNodesRef w = Some g -> m ∉ graph_ids g) /\
    (forall m', m0 = Some m' -> m' = m).
Proof.
  intros [Hw Hp].
  destruct (resumeContextIfNeeded_spec w Hw) as (ctx & m & E & Hh & Hf).
  exists ctx, m. do 3 (split; [done|]).
  intros m' ->. specialize (Hp m' eq_refl).
  (* a master gain implies a context, in which case nothing was created *)
  destruct Hw as [_ Hw]. destruct (audioCtxRef w) as [ctx'|] eqn:Hc.
  - unfold resumeContextIfNeeded in Hh.
    rewrite snd_bind, (ensureContext_present w ctx' Hc) in Hh.
    destruct Hh as (_ & (_ & _ & _ & Hm & _) & _).
    munfold. simpl in Hm. destruct (contextState w); simpl in Hm; congruence.
  - destruct Hw as (Hm & _). congruence.
Qed.

Lemma startMode_pinned c newMode m0 : stable (pinned m0) (startMode c newMode).
Proof.
  intros w Hw.
  destruct (resumeContextIfNeeded_pinned w m0 Hw) as (ctx & m & E & Hh & Hf & Hm).
  unfold startMode. rewrite snd_bind.
  destruct (resumeContextIfNeeded w) as [r w1]. simpl in E, Hh. subst r.
  pose proof (startMode_body_routed ctx m (currentNodesRef w) c newMode Hf w1 Hh)
    as H.
  match type of H with
  | match ?x with _ => _ end =>
      match goal with |- pinned _ (snd ?y) => change y with x end;
      destruct x as [[a|e] w2]
  end; simpl.
  all: split; [by apply (routed_by_routed ctx m)|].
  all: intros m' Hm'; rewrite (Hm m' Hm'); by apply (routed_by_master ctx).
Qed.

Lemma pinned_same m0 w w' : same_routing w w' -> pinned m0 w -> pinned m0 w'.
Proof.
  intros Hs [Hw Hp]. split; [by apply (routed_same w)|].
  destruct Hs as (_ & _ & -> & _). exact Hp.
Qed.

Lemma stable_same {A : Type} m0 (m : M A) :
  (forall w, same_routing w (snd (m w))) -> stable (pinned m0) m.
Proof. intros H w Hw. by apply (pinned_same m0 w). Qed.

Lemma same_ramp n target d w :
  same_routing w
    (snd ((cancelScheduledValues n Gain (currentTime w);;
           v ← get_value n Gain;
           setValueAtTime n Gain v (currentTime w);;
           linearRampToValueAtTime n Gain target (currentTime w + d)) w)).
Proof.
  unfold cancelScheduledValues, setValueAtTime, linearRampToValueAtTime,
    get_value, schedule, alter_node.
  munfold. simpl. do 6 (split; [done|]). simpl. by rewrite !length_alter.
Qed.

Lemma setVolume_same v w : same_routing w (snd (setVolume v w)).
Proof.
  rewrite setVolume_run.
  destruct (audioCtxRef w) eqn:Hc, (currentNodesRef w) as [g|] eqn:Hg;
    try by repeat split.
  pose proof (same_ramp (gain g) (Qmax 0 (Qmin 1 v)) 0.2
                (set_volumeState (Qmax 0 (Qmin 1 v)) w)) as H.
  simpl in H. destruct H as (H1 & H2 & H3 & H4 & H5 & H6 & H7).
  by repeat split.
Qed.

Lemma masterGainEffect_same c w : same_routing w (snd (masterGainEffect c w)).
Proof.
  unfold masterGainEffect. munfold. simpl.
  destruct (audioCtxRef w) eqn:Hc, (masterGainRef w) as [m|] eqn:Hm;
    try by repeat split.
  apply (same_ramp m (masterMultiplier c * volume c) 0.5 w).
Qed.

Lemma advance_same dt w : same_routing w (advance dt w).
Proof.
  unfold advance. destruct (contextState w); try by repeat split.
  destruct (Qle_bool 0 dt); [|by repeat split].
  do 6 (split; [done|]). simpl. by rewrite length_map.
Qed.

Lemma resumed_same w : same_routing w (resumed w).
Proof.
  unfold resumed. destruct (contextState w), (resumePending w);
    by repeat split.
Qed.

Lemma stopAll_pinned m0 : stable (pinned m0) stopAll.
Proof.
  intros w [Hw Hp]. unfold stopAll. rewrite snd_bind. unfold gets at 1.
  destruct (audioCtxRef w) as [ctx|] eqn:Hc; [|done].
  pose proof Hw as [_ Hw']. rewrite Hc in Hw'.
  destruct Hw' as (m & Hm & Hf).
  assert (Hh : held ctx m (currentNodesRef w) w).
  { split; [by destruct Hw|]. by split. }
  assert (S : hoare (held ctx m (currentNodesRef w))
    (now ← gets currentTime;
     master ← gets masterGainRef;
     on_some master (fun master =>
       cancelScheduledValues master Gain now;;
       v ← get_value master Gain;
       setValueAtTime master Gain v now;;
       linearRampToValueAtTime master Gain 0 (now + FADE_TIME));;
     nodes ← gets currentNodesRef;
     stopModeNodes nodes ctx true;;
     modify (set_currentNodesRef None))
    (fun _ => routed_by ctx m) (routed_by ctx m)).
  { assert (HE : forall w1, held ctx m (currentNodesRef w) w1 ->
                            routed_by ctx m w1)
      by (intros w1 Hw1; by exists (currentNodesRef w)).
    apply hoare_bind_stable; [apply stable_gets|done|intros now].
    apply hoare_bind_stable; [apply stable_gets|done|intros master].
    apply hoare_bind_stable; [|done|intros _].
    { unfold cancelScheduledValues, setValueAtTime, linearRampToValueAtTime.
      stab. }
    eapply hoare_bind with
      (Q := fun old w1 => held ctx m (currentNodesRef w) w1 /\
                          old = currentNodesRef w).
    { intros w1 Hw1. simpl. split; [done|]. by destruct Hw1 as (_ & _ & ->). }
    intros old w1 [Hw1 ->]. revert w1 Hw1.
    change (hoare (held ctx m (currentNodesRef w))
      (stopModeNodes (currentNodesRef w) ctx true;;
       modify (set_currentNodesRef None))
      (fun _ => routed_by ctx m) (routed_by ctx m)).
    apply hoare_bind_stable; [|done|intros _].
    { destruct (currentNodesRef w) as [g|] eqn:Hg; [|apply stable_ret].
      apply held_stopModeNodes. by apply Hf. }
    intros w1 Hw1. simpl. exists None. split; [|done].
    by apply (held_set_current ctx m (currentNodesRef w)). }
  specialize (S w Hh).
  match type of S with
  | match ?x with _ => _ end =>
      match goal with |- pinned _ (snd ?y) => change y with x end;
      destruct x as [[a|e] w2]
  end; simpl.
  all: split; [by apply (routed_by_routed ctx m)|].
  all: intros m' Hm'; rewrite (routed_by_master ctx m) by done.
  all: destruct Hm as (_ & _ & _ & Hm & _); rewrite <- Hm; by apply Hp.
Qed.

Lemma resumeContextIfNeeded_stable m0 : stable (pinned m0) resumeContextIfNeeded.
Proof.
  intros w Hw.
  destruct (resumeContextIfNeeded_pinned w m0 Hw) as (ctx & m & _ & Hh & Hf & Hm).
  split.
  - by apply (held_routed ctx m (currentNodesRef w)).
  - intros m' Hm'. rewrite (Hm m' Hm').
    by destruct Hh as (_ & (_ & _ & _ & H & _) & _).
Qed.

Lemma setMode_pinned c newMode m0 : stable (pinned m0) (setMode c newMode).
Proof.
  unfold setMode. apply stable_bind; [|intros _].
  - apply stable_same. intros w. by repeat split.
  - destruct (negb (enabled c)); [apply stable_ret|apply startMode_pinned].
Qed.

Lemma setEnabled_pinned c on m0 : stable (pinned m0) (setEnabled c on).
Proof.
  unfold setEnabled. apply stable_bind; [|intros _].
  - apply stable_same. intros w. by repeat split.
  - destruct on; [|apply stopAll_pinned].
    apply stable_bind; [apply resumeContextIfNeeded_stable|intros _].
    apply startMode_pinned.
Qed.

Lemma unlockHandler_pinned m0 : stable (pinned m0) unlockHandler.
Proof.
  unfold unlockHandler.
  apply stable_bind; [apply resumeContextIfNeeded_stable|intros _].
  apply stable_same. intros w. by repeat split.
Qed.

Lemma cleanup_pinned m0 : stable (pinned m0) cleanup.
Proof.
  unfold cleanup. apply stable_bind; [apply stopAll_pinned|intros _].
  apply stable_bind; [apply stable_gets|intros ctx].
  destruct ctx; [|apply stable_ret].
  apply stable_same. intros w. by repeat split.
Qed.

(** Every action of the mounted hook keeps the routing invariant and the
    master gain it started with. *)
Lemma act_pinned a c m0 w :
  pinned m0 w -> pinned m0 (snd (snd (act a (c, w)))).
Proof.
  intros Hw. destruct a; simpl.
  - pose proof (setMode_pinned c m m0 w Hw).
    by destruct (setMode c m w).
  - pose proof (setEnabled_pinned c on m0 w Hw).
    by destruct (setEnabled c on w).
  - pose proof (pinned_same m0 w _ (setVolume_same v w) Hw).
    by destruct (setVolume v w).
  - destruct (deps_changed c (closure_of w)); [|done].
    pose proof (pinned_same m0 w _ (masterGainEffect_same (closure_of w) w) Hw).
    by destruct (masterGainEffect (closure_of w) w).
  - apply (pinned_same m0 w); [|done]. by repeat split.
  - destruct (unlockListening w); [|done].
    pose proof (unlockHandler_pinned m0 w Hw).
    by destruct (unlockHandler w).
  - apply (pinned_same m0 w); [apply advance_same|done].
  - apply (pinned_same m0 w); [apply resumed_same|done].
  - pose proof (cleanup_pinned m0 w Hw).
    by destruct (cleanup w).
Qed.

Lemma routed_initial rate random :
  (0 < rate)%nat -> routed (initialWorld rate random).
Proof. intros H. by repeat split. Qed.

Lemma routed_contexts w : routed w -> (contextsCreated w <= 1)%nat.
Proof.
  intros [_ H]. destruct (audioCtxRef w).
  - destruct H as (m & (_ & _ & -> & _) & _). lia.
  - destruct H as (_ & -> & _). lia.
Qed.

Lemma routed_created_together w :
  routed w -> (audioCtxRef w = None <-> masterGainRef w = None).
Proof.
  intros [_ H]. destruct (audioCtxRef w).
  - destruct H as (m & (_ & _ & _ & -> & _) & _). split; discriminate.
  - by destruct H as (-> & _).
Qed.

(** Under a master gain and a positive sample rate [buildModeNodes] returns
    normally, for each of the three modes, and its last connection runs from
    the output gain of the new graph to the master gain. *)
Lemma buildModeNodes_connects mode w ctx m :
  routed w -> audioCtxRef w = Some ctx -> masterGainRef w = Some m ->
  exists g w',
    buildModeNodes ctx mode w = (Ok g, w') /\
    g = built_graph mode (length (nodes w)) /\
    edges w' = edges w ++ built_edges mode (length (nodes w)) m /\
    last (edges w') = Some (gain g, ToNode m) /\
    masterGainRef w' = Some m /\
    destination_inputs w' = destination_inputs w.
Proof.
  intros [Hr Hw] Hc Hm. rewrite Hc in Hw.
  destruct Hw as (m' & (_ & Hs & _) & _).
  destruct ctx as [rate]. simpl in Hs. subst rate.
  destruct (hardwareSampleRate w) as [|r] eqn:Hrate; [lia|].
  pose proof (buildModeNodes_run mode r w (nodes w) (edges w)
                (randomCalls w) m Hm) as R.
  rewrite <- with_audio_id in R. rewrite R.
  eexists _, _. split; [reflexivity|]. split; [reflexivity|].
  unfold with_audio. simpl. split; [reflexivity|].
  split; [|split; [done|]].
  - rewrite last_app. by destruct mode.
  - change (destination_inputs
              (set_edges (edges w ++ built_edges mode (length (nodes w)) m) w)
            = destination_inputs w).
    apply destination_inputs_app. destruct mode; simpl; by repeat constructor.
Qed.

(** C9: the hook as mounted is routed; every action keeps it routed, so that
    at most one context was ever created, the master gain exists exactly when
    the context does, a master gain once set stays the same node and remains
    the only input of the destination; and every graph [buildModeNodes]
    builds, for rain, wind and waves alike, connects its output gain to that
    master gain and to nothing at the destination. *)
Theorem single_master_gain_routing :
  (forall r random, routed (initialWorld (S r) random)) /\
  (forall a c w,
     routed w ->
     routed (snd (snd (act a (c, w)))) /\
     (contextsCreated (snd (snd (act a (c, w)))) <= 1)%nat /\
     (audioCtxRef (snd (snd (act a (c, w)))) = None <->
      masterGainRef (snd (snd (act a (c, w)))) = None) /\
     (forall m, masterGainRef w = Some m ->
                masterGainRef (snd (snd (act a (c, w)))) = Some m /\
                destination_inputs (snd (snd (act a (c, w)))) = [m])) /\
  (forall mode w ctx m,
     routed w -> audioCtxRef w = Some ctx -> masterGainRef w = Some m ->
     exists g w',
       buildModeNodes ctx mode w = (Ok g, w') /\
       last (edges w') = Some (gain g, ToNode m) /\
       masterGainRef w' = Some m /\
       destination_inputs w' = destination_inputs w).
Proof.
  split; [|split].
  - intros r random. apply routed_initial. lia.
  - intros a c w Hw.
    assert (Hp : pinned (masterGainRef w) w) by (split; [done|by intros m ->]).
    apply (act_pinned a c) in Hp. destruct Hp as [Hw' Hm'].
    split; [done|]. split; [by apply routed_contexts|].
    split; [by apply routed_created_together|].
    intros m Hm. specialize (Hm' m Hm). split; [done|].
    destruct Hw' as [_ Hw']. destruct (audioCtxRef _).
    + destruct Hw' as (m' & (_ & _ & _ & H4 & _ & H6) & _). congruence.
    + destruct Hw' as (H & _). congruence.
  - intros mode w ctx m Hw Hc Hm.
    destruct (buildModeNodes_connects mode w ctx m Hw Hc Hm)
      as (g & w' & E & _ & _ & H). by exists g, w'.
Qed.

Lemma single_master_gain_routing_witness :
  routed (initialWorld 1 zero_draws) /\
  routed (snd (snd (act (SetEnabled true) (initialHook 1 zero_draws)))) /\
  exists g w',
    buildModeNodes {| sampleRate := 1 |} wind
      (snd (snd (act (SetEnabled true) (initialHook 1 zero_draws)))) =
    (Ok g, w') /\
    last (edges w') = Some (gain g, ToNode 0%nat) /\
    masterGainRef w' = Some 0%nat /\
    destination_inputs w' =
    destination_inputs
      (snd (snd (act (SetEnabled true) (initialHook 1 zero_draws)))).
Proof.
  destruct single_master_gain_routing as (Hinit & Hact & Hbuild).
  pose proof (Hinit 0%nat zero_draws) as H0.
  pose proof (Hact (SetEnabled true)
                (closure_of (initialWorld 1 zero_draws))
                (initialWorld 1 zero_draws) H0) as (H1 & _).
  split; [exact H0|]. split; [exact H1|].
  apply Hbuild; [exact H1|reflexivity|reflexivity].
Defined.

(** ** The master gain effect *)

Lemma masterGainEffect_run c w ctx m a :
  audioCtxRef w = Some ctx -> masterGainRef w = Some m ->
  nodes w !! m = Some (GainNode a) ->
  masterGainEffect c w =
  (Ok tt,
   set_nodes
     (<[m := GainNode (rescheduled (currentTime w)
                         (masterMultiplier c * volume c) 0.5 a)]> (nodes w))
     w).
Proof.
  intros Hc Hm Ha. unfold masterGainEffect.
  rewrite bind_run. unfold gets at 1. rewrite Hc.
  rewrite bind_run. unfold gets at 1. rewrite Hm.
  rewrite bind_run. unfold gets at 1. cbv beta iota zeta.
  apply (ramp_from_current_run m a (masterMultiplier c * volume c) 0.5 w Ha).
  lra.
Qed.

Lemma masterGainEffect_ok c w : fst (masterGainEffect c w) = Ok tt.
Proof.
  unfold masterGainEffect. munfold. simpl.
  by destruct (audioCtxRef w), (masterGainRef w).
Qed.

Lemma masterMultiplier_table c :
  masterMultiplier c * volume c ==
  claimed_master_target (enabled c) (isRunning c) (isBreak c) (volume c).
Proof.
  unfold masterMultiplier, claimed_master_target.
  destruct (enabled c), (isRunning c), (isBreak c); simpl; lra.
Qed.

Lemma deps_changed_false c c' :
  deps_changed c c' = false <->
  isRunning c = isRunning c' /\ isBreak c = isBreak c' /\
  enabled c = enabled c' /\ volume c == volume c'.
Proof.
  unfold deps_changed. rewrite negb_false_iff, !andb_true_iff.
  rewrite !Bool.eqb_true_iff, Qeq_bool_iff. tauto.
Qed.

(** C1: the target the master gain effect ramps to is the claimed table: 0
    when disabled, the volume when enabled, running and not on break, and 0.3
    times the volume otherwise, the paused focus phase included; at volume
    0.4 the four targets are 0, 0.4, 0.12 and 0.12.  The effect returns
    normally, and with a context and a master gain it holds the gain's current
    value and schedules the ramp to that target over 0.5 s; a render runs it
    exactly when one of the four inputs changed. *)
Theorem master_gain_target_table :
  (forall c,
     masterMultiplier c * volume c ==
     claimed_master_target (enabled c) (isRunning c) (isBreak c) (volume c)) /\
  (forall r b md,
     masterMultiplier {| isRunning := r; isBreak := b; mode := md;
                         enabled := false; volume := 0.4 |} * 0.4 == 0) /\
  (forall md,
     masterMultiplier {| isRunning := true; isBreak := false; mode := md;
                         enabled := true; volume := 0.4 |} * 0.4 == 0.4) /\
  (forall r md,
     masterMultiplier {| isRunning := r; isBreak := true; mode := md;
                         enabled := true; volume := 0.4 |} * 0.4 == 0.12) /\
  (forall md,
     masterMultiplier {| isRunning := false; isBreak := false; mode := md;
                         enabled := true; volume := 0.4 |} * 0.4 == 0.12) /\
  (forall c w, fst (masterGainEffect c w) = Ok tt) /\
  (forall c w ctx m a,
     audioCtxRef w = Some ctx -> masterGainRef w = Some m ->
     nodes w !! m = Some (GainNode a) ->
     snd (masterGainEffect c w) =
     set_nodes
       (<[m := GainNode (rescheduled (currentTime w)
                           (masterMultiplier c * volume c) 0.5 a)]> (nodes w))
       w) /\
  (forall c w,
     act Render (c, w) =
     if deps_changed c (closure_of w)
     then (fst (masterGainEffect (closure_of w) w),
           (closure_of w, snd (masterGainEffect (closure_of w) w)))
     else (Ok tt, (closure_of w, w))) /\
  (forall c c',
     deps_changed c c' = false <->
     isRunning c = isRunning c' /\ isBreak c = isBreak c' /\
     enabled c = enabled c' /\ volume c == volume c').
Proof.
  split; [apply masterMultiplier_table|].
  split; [intros r b md; unfold masterMultiplier; simpl; lra|].
  split; [intros md; unfold masterMultiplier; simpl; lra|].
  split; [intros r md; unfold masterMultiplier; destruct r; simpl; lra|].
  split; [intros md; unfold masterMultiplier; simpl; lra|].
  split; [apply masterGainEffect_ok|].
  split; [|split; [|apply deps_changed_false]].
  - intros c w ctx m a Hc Hm Ha.
    by rewrite (masterGainEffect_run c w ctx m a Hc Hm Ha).
  - intros c w. simpl. destruct (deps_changed c (closure_of w)); [|done].
    by destruct (masterGainEffect (closure_of w) w).
Qed.

(** ** The second half of [startMode] *)

Lemma set_current_audio x w ns es rc :
  modify (set_currentNodesRef x) (with_audio w ns es rc) =
  (Ok tt, with_audio (set_currentNodesRef x w) ns es rc).
Proof. reflexivity. Qed.

Lemma start_audio_started i pb w ns es rc :
  ns !! i ≫= playback_of = Some pb -> started pb = true ->
  start i (with_audio w ns es rc) =
  (Throw InvalidStateError, with_audio w ns es rc).
Proof. intros H1 H2. unfold start. simpl. by rewrite H1, H2. Qed.

Lemma fade_after_now now : Qle_bool now (now + FADE_TIME) = true.
Proof. apply Qle_bool_iff. unfold FADE_TIME. lra. Qed.

(** The second half of [startMode], from [buildModeNodes] on, for rain and
    wind: it returns normally with the new graph current, its source started
    and its output gain ramping from 0 at [now] to [target]. *)
Lemma startMode_finish_run mode r w ns es rc m now target :
  masterGainRef w = Some m -> mode <> waves ->
  (nodes ← buildModeNodes {| sampleRate := S r |} mode;
   modify (set_currentNodesRef (Some nodes));;
   setValueAtTime (gain nodes) Gain 0 now;;
   start (source nodes);;
   linearRampToValueAtTime (gain nodes) Gain target (now + FADE_TIME))
    (with_audio w ns es rc) =
  (Ok tt,
   with_audio (set_currentNodesRef (Some (built_graph mode (length ns))) w)
     (ns ++ started_nodes mode {| sampleRate := S r |} (randomSource w) rc
              now target)
     (es ++ built_edges mode (length ns) m)
     (rc + built_draws mode {| sampleRate := S r |})).
Proof.
  intros Hm Hmode. rewrite bind_run, (buildModeNodes_run mode r w ns es rc m Hm).
  cbv beta iota.
  rewrite bind_run, set_current_audio. cbv beta iota.
  unfold setValueAtTime, linearRampToValueAtTime, schedule.
  rewrite bind_run, alter_node_audio. cbv beta iota.
  destruct mode; [| |done]; unfold built_graph, built_nodes; cbn [gain source].
  all: store_norm.
  all: rewrite bind_run;
    (erewrite start_audio; [|store_norm; reflexivity|reflexivity]);
    cbv beta iota; store_norm.
  all: rewrite alter_node_audio; store_norm.
  all: cbn [insertEvent ev_time]; rewrite fade_after_now.
  all: reflexivity.
Qed.

(** The same for waves: the second [start] of the body source raises, after
    the new graph became current with its output gain held at 0. *)
Lemma startMode_finish_waves r w ns es rc m now target :
  masterGainRef w = Some m ->
  (nodes ← buildModeNodes {| sampleRate := S r |} waves;
   modify (set_currentNodesRef (Some nodes));;
   setValueAtTime (gain nodes) Gain 0 now;;
   start (source nodes);;
   linearRampToValueAtTime (gain nodes) Gain target (now + FADE_TIME))
    (with_audio w ns es rc) =
  (Throw InvalidStateError,
   with_audio (set_currentNodesRef (Some (built_graph waves (length ns))) w)
     (ns ++ stalled_nodes {| sampleRate := S r |} (randomSource w) rc now)
     (es ++ built_edges waves (length ns) m)
     (rc + built_draws waves {| sampleRate := S r |})).
Proof.
  intros Hm. rewrite bind_run, (buildModeNodes_run waves r w ns es rc m Hm).
  cbv beta iota.
  rewrite bind_run, set_current_audio. cbv beta iota.
  unfold setValueAtTime, linearRampToValueAtTime, schedule.
  rewrite bind_run, alter_node_audio. cbv beta iota.
  unfold built_graph, built_nodes; cbn [gain source].
  store_norm.
  rewrite bind_run.
  erewrite start_audio_started; [|store_norm; reflexivity|reflexivity].
  reflexivity.
Qed.

(** ** Enabling, and the waves mode *)

Lemma resume_requested_idem w :
  resume_requested (resume_requested w) = resume_requested w.
Proof. unfold resume_requested. by destruct (contextState w) eqn:E; simpl; rewrite ?E. Qed.

Lemma resume_requested_fields w :
  enabledState (resume_requested w) = enabledState w /\
  volumeState (resume_requested w) = volumeState w /\
  modeState (resume_requested w) = modeState w /\
  currentTime (resume_requested w) = currentTime w /\
  nodes (resume_requested w) = nodes w /\
  edges (resume_requested w) = edges w /\
  randomCalls (resume_requested w) = randomCalls w /\
  randomSource (resume_requested w) = randomSource w /\
  masterGainRef (resume_requested w) = masterGainRef w /\
  audioCtxRef (resume_requested w) = audioCtxRef w /\
  currentNodesRef (resume_requested w) = currentNodesRef w /\
  contextState (resume_requested w) = contextState w.
Proof. unfold resume_requested. by destruct (contextState w) eqn:E. Qed.

Lemma resume_if_suspended_run w :
  (match contextState w with
   | suspended => resume
   | _ => mret tt
   end) w = (Ok tt, resume_requested w).
Proof.
  unfold resume, resume_requested. munfold.
  destruct (contextState w) eqn:E; simpl; by rewrite ?E.
Qed.

Lemma resumeContextIfNeeded_present w ctx :
  audioCtxRef w = Some ctx ->
  resumeContextIfNeeded w = (Ok ctx, resume_requested w).
Proof.
  intros Hc. unfold resumeContextIfNeeded.
  rewrite bind_run, (ensureContext_present w ctx Hc). cbv beta iota.
  unfold resume, resume_requested. munfold.
  destruct (contextState w) eqn:E; simpl; by rewrite ?E.
Qed.

(** [startMode] with a context and no current graph, for rain and wind: the
    run in full. *)
Lemma startMode_idle_run c newMode ctx m w :
  held ctx m None w -> newMode <> waves ->
  startMode c newMode w =
  (Ok tt,
   with_audio
     (set_currentNodesRef (Some (built_graph newMode (length (nodes w))))
        (resume_requested w))
     (nodes w ++ started_nodes newMode ctx (randomSource w) (randomCalls w)
                   (currentTime w) (if enabled c then volume c else 0))
     (edges w ++ built_edges newMode (length (nodes w)) m)
     (randomCalls w + built_draws newMode ctx)).
Proof.
  intros (Hr & (H1 & H2 & H3 & H4 & H5 & H6) & Hc) Hmode.
  destruct ctx as [rate]. simpl in H2. subst rate.
  destruct (hardwareSampleRate w) as [|r] eqn:Hrate; [lia|].
  destruct (resume_requested_fields w)
    as (_ & _ & _ & T1 & N1 & E1 & R1 & RS1 & M1 & _ & C1 & CS1).
  unfold startMode.
  rewrite bind_run, (resumeContextIfNeeded_present w _ H1). cbv beta iota.
  rewrite bind_run. unfold gets at 1. cbv beta iota.
  rewrite bind_run. unfold gets at 1. cbv beta iota.
  rewrite bind_run, resume_if_suspended_run, resume_requested_idem.
  cbv beta iota.
  rewrite bind_run. unfold gets at 1. cbv beta iota. rewrite C1, Hc.
  rewrite bind_run, ret_run. cbv beta iota.
  rewrite (with_audio_id (resume_requested w)) at 1.
  rewrite <- M1 in H4.
  rewrite (startMode_finish_run newMode r (resume_requested w) _ _ _ m _ _
             H4 Hmode).
  by rewrite T1, N1, E1, R1, RS1.
Qed.

Lemma started_nodes_gain mode ctx random rc now target :
  started_nodes mode ctx random rc now target !! 0%nat =
  Some (GainNode (faded_in now target)).
Proof. by destruct mode. Qed.

Lemma built_graph_gain mode n : gain (built_graph mode n) = n.
Proof. by destruct mode. Qed.

Lemma resumeContextIfNeeded_cells w :
  volumeState (snd (resumeContextIfNeeded w)) = volumeState w /\
  enabledState (snd (resumeContextIfNeeded w)) = enabledState w /\
  modeState (snd (resumeContextIfNeeded w)) = modeState w /\
  currentTime (snd (resumeContextIfNeeded w)) = currentTime w.
Proof.
  unfold resumeContextIfNeeded, ensureContext. rewrite snd_bind.
  destruct (audioCtxRef w).
  - munfold. simpl. by destruct (contextState w).
  - unfold createGain, newNode, set_value, alter_node, connect, resume.
    munfold. simpl. by destruct (contextState w).
Qed.

(** C5 against the code: enabling from idle (no current graph) on a closure
    that still reads [enabled = false] returns normally, makes the graph of
    the closure's mode current, and schedules on its output gain the hold at 0
    and a ramp whose target is 0, whatever the volume. *)
Theorem enable_from_idle_ramps_to_zero c w :
  routed w -> currentNodesRef w = None -> enabled c = false ->
  mode c <> waves ->
  exists g w',
    setEnabled c true w = (Ok tt, w') /\
    enabledState w' = true /\
    volumeState w' = volumeState w /\
    currentNodesRef w' = Some g /\
    nodes w' !! gain g = Some (GainNode (faded_in (currentTime w) 0)) /\
    output_target w' = Some 0.
Proof.
  intros Hw Hcur He Hmode.
  set (w0 := set_enabledState true w).
  assert (Hw0 : routed w0)
    by (apply (routed_same w); [by repeat split|done]).
  destruct (resumeContextIfNeeded_spec w0 Hw0) as (ctx & m & E & Hh & _).
  destruct (resumeContextIfNeeded_cells w0) as (Hv & Hen & _ & Ht).
  destruct (resumeContextIfNeeded w0) as [r1 w1] eqn:E1.
  simpl in E, Hh, Ht, Hv, Hen. subst r1.
  change (currentNodesRef w0) with (currentNodesRef w) in Hh.
  rewrite Hcur in Hh.
  pose proof (startMode_idle_run c (mode c) ctx m w1 Hh Hmode) as Erun.
  rewrite He in Erun.
  destruct (resume_requested_fields w1) as (F1 & F2 & _).
  exists (built_graph (mode c) (length (nodes w1))). eexists. split.
  { unfold setEnabled. rewrite bind_run. unfold modify at 1. cbv beta iota.
    fold w0. rewrite bind_run, E1. cbv beta iota. exact Erun. }
  assert (Hg : (nodes w1 ++
                started_nodes (mode c) ctx (randomSource w1) (randomCalls w1)
                  (currentTime w1) 0) !! length (nodes w1) =
               Some (GainNode (faded_in (currentTime w) 0))).
  { rewrite lookup_app_len, started_nodes_gain. by rewrite Ht. }
  unfold output_target, gain_target, gain_events, with_audio. simpl.
  rewrite !built_graph_gain, !Hg. simpl.
  rewrite F1, F2, Hen, Hv. by repeat split.
Qed.

(** [startMode('waves')] never returns normally: [buildModeNodes] has started
    the body source, and [startMode] starts it again. *)
Lemma startMode_waves_raises c w :
  routed w -> exists e, fst (startMode c waves w) = Throw e.
Proof.
  intros Hw.
  assert (H : hoare routed (startMode c waves) (fun _ _ => False)
                (fun _ => True)).
  { unfold startMode.
    eapply hoare_bind with
      (Q := fun ctx w => exists m cur, held ctx m cur w /\
                           forall g, cur = Some g -> m ∉ graph_ids g).
    { intros w0 Hw0.
      destruct (resumeContextIfNeeded_spec w0 Hw0) as (ctx & m & E & Hh & Hf).
      destruct (resumeContextIfNeeded w0) as [r w1]. simpl in E, Hh. subst r.
      exists m, (currentNodesRef w0). by split. }
    intros ctx w0 (m & cur & Hh & Hf). revert w0 Hh.
    change (hoare (held ctx m cur)
      (now ← gets currentTime;
       st ← gets contextState;
       match st with
       | suspended => resume
       | _ => mret tt
       end;;
       oldNodes ← gets currentNodesRef;
       match oldNodes with
       | Some _ => stopModeNodes oldNodes ctx true
       | None => mret tt
       end;;
       nodes ← buildModeNodes ctx waves;
       modify (set_currentNodesRef (Some nodes));;
       setValueAtTime (gain nodes) Gain 0 now;;
       start (source nodes);;
       linearRampToValueAtTime (gain nodes) Gain
         (if enabled c then volume c else 0) (now + FADE_TIME))
      (fun _ _ => False) (fun _ => True)).
    apply hoare_bind_stable; [apply stable_gets|done|intros now].
    apply hoare_bind_stable; [apply stable_gets|done|intros st].
    apply hoare_bind_stable; [destruct st; stab|done|intros _].
    eapply hoare_bind with (Q := fun old w1 => held ctx m cur w1 /\ old = cur).
    { intros w1 Hw1. simpl. split; [done|]. by destruct Hw1 as (_ & _ & ->). }
    intros old w1 [Hw1 ->]. revert w1 Hw1.
    change (hoare (held ctx m cur)
      (match cur with
       | Some _ => stopModeNodes cur ctx true
       | None => mret tt
       end;;
       nodes ← buildModeNodes ctx waves;
       modify (set_currentNodesRef (Some nodes));;
       setValueAtTime (gain nodes) Gain 0 now;;
       start (source nodes);;
       linearRampToValueAtTime (gain nodes) Gain
         (if enabled c then volume c else 0) (now + FADE_TIME))
      (fun _ _ => False) (fun _ => True)).
    apply hoare_bind_stable; [|done|intros _].
    { destruct cur as [g|]; [|apply stable_ret].
      apply held_stopModeNodes. by apply Hf. }
    intros w1 (Hr & (H1 & H2 & H3 & H4 & H5 & H6) & Hc).
    destruct ctx as [rate]. simpl in H2. subst rate.
    destruct (hardwareSampleRate w1) as [|r] eqn:Hrate; [lia|].
    pose proof (startMode_finish_waves r w1 (nodes w1) (edges w1)
                  (randomCalls w1) m now
                  (if enabled c then volume c else 0) H4) as R.
    rewrite <- with_audio_id in R. by rewrite R. }
  specialize (H w Hw). destruct (startMode c waves w) as [[a|e] w']; [done|].
  by exists e.
Qed.

Lemma setMode_waves_raises c w :
  routed w -> enabled c = true -> exists e, fst (setMode c waves w) = Throw e.
Proof.
  intros Hw He. unfold setMode. rewrite bind_run. unfold modify at 1.
  cbv beta iota. rewrite He. simpl.
  apply startMode_waves_raises. apply (routed_same w); [by repeat split|done].
Qed.

Lemma enable_from_idle_ramps_to_zero_witness :
  exists g w',
    setEnabled (closure_of (initialWorld 1 zero_draws)) true
      (initialWorld 1 zero_draws) = (Ok tt, w') /\
    enabledState w' = true /\
    volumeState w' = 0.4 /\
    currentNodesRef w' = Some g /\
    nodes w' !! gain g = Some (GainNode (faded_in 0 0)) /\
    output_target w' = Some 0.
Proof.
  apply (enable_from_idle_ramps_to_zero
           (closure_of (initialWorld 1 zero_draws))
           (initialWorld 1 zero_draws)).
  - apply routed_initial. lia.
  - reflexivity.
  - reflexivity.
  - discriminate.
Defined.

(** C2 against the code.  With a render after each call, [setMode('waves')]
    raises [InvalidStateError]; with the three calls made on one closure no
    call raises, but the graph left current is the rain graph, not a waves
    graph.  In every routed world [setMode('waves')] on an enabled closure
    raises.  With the clock running, the master gain ramp in flight at the
    volume change is replaced by a hold of its current value 0.024 and a ramp
    from there to 0.24. *)
Theorem enable_waves_volume_sequence_raises :
  (forall r random,
     fst (run [SetEnabled true; Render; SetMode waves; Render;
               SetVolume 0.8; Render] (initialHook (S r) random)) =
     [Ok tt; Ok tt; Throw InvalidStateError; Ok tt; Ok tt; Ok tt]) /\
  (forall r random,
     fst (run [SetEnabled true; SetMode waves; SetVolume 0.8]
            (initialHook (S r) random)) = [Ok tt; Ok tt; Ok tt] /\
     currentNodesRef
       (snd (snd (run [SetEnabled true; SetMode waves; SetVolume 0.8]
                    (initialHook (S r) random)))) =
     Some (built_graph rain 1) /\
     modeState
       (snd (snd (run [SetEnabled true; SetMode waves; SetVolume 0.8]
                    (initialHook (S r) random)))) = waves) /\
  (forall c w, routed w -> enabled c = true ->
               exists e, fst (setMode c waves w) = Throw e) /\
  (forall r random,
     fst (run [SetEnabled true; Resumed; Render; Advance 0.05; SetMode waves;
               Render; Advance 0.05; SetVolume 0.8; Render]
            (initialHook (S r) random)) =
     [Ok tt; Ok tt; Ok tt; Ok tt; Throw InvalidStateError; Ok tt; Ok tt;
      Ok tt; Ok tt] /\
     same_events
       (gain_events
          (snd (snd (run [SetEnabled true; Resumed; Render; Advance 0.05;
                          SetMode waves; Render; Advance 0.05; SetVolume 0.8;
                          Render] (initialHook (S r) random)))) 0)
       [SetValueAtTime 0 0; SetValueAtTime 0.024 0.1;
        LinearRampToValueAtTime 0.24 0.6] = true).
Proof.
  split; [|split; [|split]].
  - intros r random. vm_compute. reflexivity.
  - intros r random. vm_compute. by repeat split.
  - apply setMode_waves_raises.
  - intros r random. vm_compute. by split.
Qed.

(** ** Teardown: what [stopModeNodes] leaves of the old graph *)

Lemma hoare_try_ignore {P : World -> Prop} (m : M unit)
    (Q : unit -> World -> Prop) E :
  (forall w, P w -> Q tt (snd (m w))) -> hoare P (try_ignore m) Q E.
Proof. intros H w Hw. by apply H. Qed.

Lemma hoare_modify {P : World -> Prop} f (Q : unit -> World -> Prop) E :
  (forall w, P w -> Q tt (f w)) -> hoare P (modify f) Q E.
Proof. intros H w Hw. by apply H. Qed.

Lemma hoare_on_some {A : Type} {P : World -> Prop} (o : option A) f
    (Q : unit -> World -> Prop) E :
  (forall a, o = Some a -> hoare P (f a) Q E) ->
  (o = None -> forall w, P w -> Q tt w) ->
  hoare P (on_some o f) Q E.
Proof.
  intros Hs Hn. destruct o as [a|]; simpl; [by apply Hs|].
  intros w Hw. by apply Hn.
Qed.

Lemma gain_events_set_playback pb i n w :
  gain_events (set_nodes (alter (set_playback pb) i (nodes w)) w) n =
  gain_events w n.
Proof.
  unfold gain_events. simpl.
  destruct (decide (i = n)) as [->|Hne].
  - rewrite list_lookup_alter_eq. by destruct (nodes w !! n) as [[]|].
  - by rewrite list_lookup_alter_ne.
Qed.

Lemma fading_stop n evs t i when : stable (fading n evs t) (stop i when).
Proof.
  intros w [H1 H2]. unfold stop.
  destruct (nodes w !! i ≫= playback_of) as [pb|]; [|done].
  destruct (started pb); [|done].
  split; [|done]. simpl. by rewrite gain_events_set_playback.
Qed.

Lemma fading_disconnect n evs t i : stable (fading n evs t) (disconnect i).
Proof. by intros w [H1 H2]. Qed.

Lemma out_edges_disconnect w n :
  out_edges
    (set_edges (List.filter (fun e => negb (fst e =? n)%nat) (edges w)) w) n
  = [].
Proof.
  unfold out_edges. simpl.
  induction (edges w) as [|[a t] es IH]; simpl; [done|].
  destruct (a =? n)%nat eqn:E; simpl; [done|]. by rewrite E.
Qed.

Lemma out_edges_empty_disconnect n i :
  stable (fun w => out_edges w n = []) (disconnect i).
Proof.
  intros w H. unfold out_edges in *. simpl.
  induction (edges w) as [|[a t] es IH]; simpl in *; [done|].
  destruct (a =? n)%nat eqn:E; [done|].
  destruct (a =? i)%nat; simpl; rewrite ?E; by apply IH.
Qed.

Lemma out_edges_empty_stop n i when :
  stable (fun w => out_edges w n = []) (stop i when).
Proof.
  intros w H. unfold stop.
  destruct (nodes w !! i ≫= playback_of) as [pb|]; [|done].
  by destruct (started pb).
Qed.

Ltac teardown :=
  lazymatch goal with
  | |- stable _ (mbind _ _) =>
      apply stable_bind; [teardown | intros ?; teardown]
  | |- stable _ (mret _) => apply stable_ret
  | |- stable _ (try_ignore _) => apply stable_try_ignore; teardown
  | |- stable _ (on_some _ _) => apply stable_on_some; intros ? ?; teardown
  | |- stable (fading _ _ _) (stop _ _) => apply fading_stop
  | |- stable (fading _ _ _) (disconnect _) => apply fading_disconnect
  | |- stable _ (stop _ _) => apply out_edges_empty_stop
  | |- stable _ (disconnect _) => apply out_edges_empty_disconnect
  | |- _ => idtac
  end.

(** [stopModeNodes] with a fade, on any world: the clock has not moved, the
    old output gain carries the hold of its current value and the ramp to 0
    that ends one fade time later, and it has no outgoing connection left. *)
Lemma stopModeNodes_disconnects_at_once g ctx w a :
  nodes w !! gain g = Some (GainNode a) ->
  currentTime (snd (stopModeNodes (Some g) ctx true w)) = currentTime w /\
  gain_events (snd (stopModeNodes (Some g) ctx true w)) (gain g) =
    events_before (currentTime w) (events a) ++
    [SetValueAtTime (value a) (currentTime w);
     LinearRampToValueAtTime 0 (currentTime w + FADE_TIME)] /\
  out_edges (snd (stopModeNodes (Some g) ctx true w)) (gain g) = [].
Proof.
  intros Ha.
  remember (snd (stopModeNodes (Some g) ctx true w)) as w' eqn:Hw'.
  unfold stopModeNodes in Hw'.
  rewrite snd_bind in Hw'. unfold gets at 1 in Hw'. cbv beta iota in Hw'.
  rewrite snd_bind in Hw'.
  rewrite (ramp_from_current_run (gain g) a 0 FADE_TIME w Ha) in Hw'
    by (unfold FADE_TIME; lra).
  cbv beta iota in Hw'.
  set (w1 := set_nodes _ w) in Hw'.
  set (evs := events_before (currentTime w) (events a) ++ _).
  assert (H1 : fading (gain g) evs (currentTime w) w1).
  { split; [|done]. unfold gain_events, w1. simpl.
    rewrite list_lookup_insert_eq; [done|]. by eapply lookup_lt_Some. }
  match type of Hw' with
  | _ = snd (?tail w1) =>
      assert (Hf : stable (fading (gain g) evs (currentTime w)) tail)
        by teardown;
      assert (He : hoare (fun _ => True) tail
                     (fun _ w' => out_edges w' (gain g) = [])
                     (fun w' => out_edges w' (gain g) = []))
  end.
  { eapply hoare_bind with (Q := fun _ _ => True); [|intros _].
    { by apply hoare_try_ignore. }
    eapply hoare_bind with (Q := fun _ _ => True); [|intros _].
    { apply hoare_on_some; [|done]. intros s _. by apply hoare_try_ignore. }
    eapply hoare_bind with (Q := fun _ _ => True); [|intros _].
    { by apply hoare_modify. }
    eapply hoare_bind with (Q := fun _ _ => True); [|intros _].
    { apply hoare_on_some; [|done]. intros s _. by apply hoare_modify. }
    eapply hoare_bind with (Q := fun _ w' => out_edges w' (gain g) = []);
      [|intros _].
    { apply hoare_modify. intros w2 _. apply out_edges_disconnect. }
    apply hoare_stable. teardown. }
  specialize (Hf w1 H1). specialize (He w1 I).
  rewrite <- Hw' in Hf. destruct Hf as [Hf1 Hf2].
  split_and!; [done|done|].
  match type of He with
  | match ?x with _ => _ end => destruct x as [[u|e] w2]
  end; by subst w'.
Qed.

(** C3 against the code.  On any world, [stopModeNodes] with a fade returns
    with the clock where it was, the old output gain carrying the hold of its
    current value and the ramp to 0 that ends one fade time later, and that
    gain without any outgoing connection.  In particular: the rain graph plays
    at volume 0.4 and [setMode('wind')] is called at time 2.  The call
    schedules the fade of the old output gain from 0.4 to 0 at 2.5, tells the
    old source to stop at 2.5, and ramps the new output gain from 0 to 0.4 at
    2.5; at time 2.25 both gains read 0.2.  But in the world the call returns,
    still at time 2, no node of the old graph has a connection left and the
    master gain has the new graph as its only input. *)
Theorem mode_change_disconnects_before_fade :
  (forall g ctx w a,
     nodes w !! gain g = Some (GainNode a) ->
     currentTime (snd (stopModeNodes (Some g) ctx true w)) = currentTime w /\
     gain_events (snd (stopModeNodes (Some g) ctx true w)) (gain g) =
       events_before (currentTime w) (events a) ++
       [SetValueAtTime (value a) (currentTime w);
        LinearRampToValueAtTime 0 (currentTime w + FADE_TIME)] /\
     out_edges (snd (stopModeNodes (Some g) ctx true w)) (gain g) = []) /\
  (forall r random,
     let before := snd (run [SetEnabled true; Resumed; Render; Advance 1;
                             SetVolume 0.4; Render; Advance 1]
                          (initialHook (S r) random)) in
     let after := snd (snd (act (SetMode wind) before)) in
     let later := snd (snd (run [Render; Advance 0.25] (fst before, after))) in
     currentNodesRef (snd before) = Some (built_graph rain 1) /\
     out_edges (snd before) 1 = [(1%nat, ToNode 0)] /\
     inputs_of (snd before) 0 = [1%nat] /\
     gain_value (snd before) 1 == 0.4 /\
     currentTime (snd before) == 2 /\
     fst (act (SetMode wind) before) = Ok tt /\
     currentTime after == 2 /\
     same_events (gain_events after 1)
       [SetValueAtTime 0 0; LinearRampToValueAtTime 0 0.5;
        SetValueAtTime 0 1; LinearRampToValueAtTime 0.4 1.2;
        SetValueAtTime 0.4 2; LinearRampToValueAtTime 0 2.5] = true /\
     stops_at after 2 2.5 = true /\
     out_edges after 1 = [] /\
     out_edges after 2 = [] /\
     out_edges after 3 = [] /\
     inputs_of after 0 = [4%nat] /\
     currentNodesRef after = Some (built_graph wind 4) /\
     same_events (gain_events after 4)
       [SetValueAtTime 0 2; LinearRampToValueAtTime 0.4 2.5] = true /\
     currentTime later == 2.25 /\
     gain_value later 1 == 0.2 /\
     gain_value later 4 == 0.2 /\
     out_edges later 1 = []).
Proof.
  split.
  - intros g ctx w a Ha. by apply stopModeNodes_disconnects_at_once.
  - intros r random. vm_compute. by repeat split.
Qed.

(** C8 against the code.  From the mounted hook, one [setEnabled(true)]
    leaves one graph connected to the master gain with output target 0.  A
    second call after the render that follows the first leaves one graph
    connected as well, the master target unchanged at 0.12, but its output
    target is 0.4.  Two calls on one closure leave output target 0. *)
Theorem enable_twice_changes_output_target r random :
  let once := snd (snd (run [SetEnabled true; Render]
                          (initialHook (S r) random))) in
  let twice := snd (snd (run [SetEnabled true; Render; SetEnabled true; Render]
                           (initialHook (S r) random))) in
  let twice_one_closure :=
    snd (snd (run [SetEnabled true; SetEnabled true; Render]
                (initialHook (S r) random))) in
  fst (run [SetEnabled true; Render; SetEnabled true; Render]
         (initialHook (S r) random)) = [Ok tt; Ok tt; Ok tt; Ok tt] /\
  inputs_of once 0 = [1%nat] /\
  inputs_of twice 0 = [4%nat] /\
  inputs_of twice_one_closure 0 = [4%nat] /\
  currentNodesRef once = Some (built_graph rain 1) /\
  currentNodesRef twice = Some (built_graph rain 4) /\
  gain_target once 0 = Some (0.3 * 0.4) /\
  gain_target twice 0 = Some (0.3 * 0.4) /\
  output_target once = Some 0 /\
  output_target twice = Some 0.4 /\
  output_target twice_one_closure = Some 0.
Proof. vm_compute. by repeat split. Qed.

(** ** The volume and master gain ramps on a playing graph *)

Lemma setVolume_clamps_and_ramps_witness :
  fst (setVolume 1.5
         (snd (snd (run [SetEnabled true; Resumed; Render; Advance 1]
                      (initialHook 1 zero_draws))))) = Ok tt /\
  same_events
    (gain_events
       (snd (setVolume 1.5
               (snd (snd (run [SetEnabled true; Resumed; Render; Advance 1]
                            (initialHook 1 zero_draws)))))) 1)
    [SetValueAtTime 0 0; LinearRampToValueAtTime 0 0.5;
     SetValueAtTime 0 1; LinearRampToValueAtTime 1 1.2] = true.
Proof.
  pose proof (setVolume_clamps_and_ramps 1.5
                (snd (snd (run [SetEnabled true; Resumed; Render; Advance 1]
                             (initialHook 1 zero_draws)))))
    as (Hok & _ & _ & Hramp & _).
  split; [exact Hok|].
  rewrite (Hramp {| sampleRate := 1 |} (built_graph rain 1)
             {| value := 0;
                events := [SetValueAtTime 0 0;
                           LinearRampToValueAtTime 0 (0 + FADE_TIME)] |}).
  - vm_compute. reflexivity.
  - vm_compute. reflexivity.
  - vm_compute. reflexivity.
  - vm_compute. reflexivity.
Defined.

Lemma master_gain_target_table_witness :
  same_events
    (gain_events
       (snd (masterGainEffect
               {| isRunning := true; isBreak := false; mode := rain;
                  enabled := true; volume := 0.4 |}
               (snd (snd (run [SetEnabled true; Resumed; Render; Advance 0.25]
                            (initialHook 1 zero_draws)))))) 0)
    [SetValueAtTime 0 0; SetValueAtTime 0.06 0.25;
     LinearRampToValueAtTime 0.4 0.75] = true.
Proof.
  destruct master_gain_target_table as (_ & _ & _ & _ & _ & _ & Hrun & _).
  rewrite (Hrun _ _ {| sampleRate := 1 |} 0%nat
             {| value := 3000 # 50000;
                events := [SetValueAtTime 0 0;
                           LinearRampToValueAtTime (0.3 * 0.4) (0 + 0.5)] |}).
  - vm_compute. reflexivity.
  - vm_compute. reflexivity.
  - vm_compute. reflexivity.
  - vm_compute. reflexivity.
Defined.
